(** * STM32 GPIO bank: register file and pin-state resolution

    A shallow embedding of [hw/gpio/stm32_gpio.c] and of the declarations
    of [include/hw/gpio/stm32_gpio.h] it relies on.  The 32-bit registers
    are integers with their wrap-around written out, the device functions
    are computations over the device state that may abort on a failed
    [assert] and that record what they send to the outside (interrupt
    lines, guest-error log, trace points). *)

From Stdlib Require Import ZArith List Bool Lia.
Import ListNotations.

Local Open Scope Z_scope.
Local Open Scope bool_scope.

(** ** Declarations of [stm32_gpio.h] *)

Definition STM32_GPIO_REG_MODER   : Z := 0x000.
Definition STM32_GPIO_REG_OTYPER  : Z := 0x004.
Definition STM32_GPIO_REG_OSPEEDR : Z := 0x008.
Definition STM32_GPIO_REG_PUPDR   : Z := 0x00C.
Definition STM32_GPIO_REG_IDR     : Z := 0x010.
Definition STM32_GPIO_REG_ODR     : Z := 0x014.
Definition STM32_GPIO_REG_BSRR    : Z := 0x018.
Definition STM32_GPIO_REG_LCKR    : Z := 0x01C.
Definition STM32_GPIO_REG_AFRL    : Z := 0x020.
Definition STM32_GPIO_REG_AFRH    : Z := 0x024.

Definition STM32_GPIO_NPINS : Z := 16.

(* enum STM32GPIOPort, STM32GPIOMode, STM32GPIOPull: the enumerators the
   device code compares against. *)
Definition STM32_GPIO_PORT_A : Z := 0.
Definition STM32_GPIO_PORT_B : Z := 1.

Definition STM32_GPIO_MODE_INPUT  : Z := 0.
Definition STM32_GPIO_MODE_OUTPUT : Z := 1.
Definition STM32_GPIO_MODE_AF     : Z := 2.
Definition STM32_GPIO_MODE_ANALOG : Z := 3.

Definition STM32_GPIO_PULL_NONE : Z := 0.
Definition STM32_GPIO_PULL_UP   : Z := 1.
Definition STM32_GPIO_PULL_DOWN : Z := 2.

(** struct STM32GPIOState, without the bus plumbing ([parent_obj], [mmio])
    and the interrupt handles, which are the targets of the events below.
    Every field is a [uint32_t]; the external drive vector is called [in]
    in the source. *)
Record STM32GPIOState : Type := mkState {
  moder   : Z;
  otyper  : Z;
  ospeedr : Z;
  pupdr   : Z;
  idr     : Z;   (* actual value of the pin *)
  odr     : Z;   (* pin value requested by the user *)
  lckr    : Z;
  aflr    : Z;
  afhr    : Z;
  in_     : Z;
  in_mask : Z;
  port    : Z;   (* config *)
  ngpio   : Z    (* config *)
}.

Definition set_moder (v : Z) (s : STM32GPIOState) : STM32GPIOState :=
  mkState v (otyper s) (ospeedr s) (pupdr s) (idr s) (odr s) (lckr s)
          (aflr s) (afhr s) (in_ s) (in_mask s) (port s) (ngpio s).
Definition set_otyper (v : Z) (s : STM32GPIOState) : STM32GPIOState :=
  mkState (moder s) v (ospeedr s) (pupdr s) (idr s) (odr s) (lckr s)
          (aflr s) (afhr s) (in_ s) (in_mask s) (port s) (ngpio s).
Definition set_ospeedr (v : Z) (s : STM32GPIOState) : STM32GPIOState :=
  mkState (moder s) (otyper s) v (pupdr s) (idr s) (odr s) (lckr s)
          (aflr s) (afhr s) (in_ s) (in_mask s) (port s) (ngpio s).
Definition set_pupdr (v : Z) (s : STM32GPIOState) : STM32GPIOState :=
  mkState (moder s) (otyper s) (ospeedr s) v (idr s) (odr s) (lckr s)
          (aflr s) (afhr s) (in_ s) (in_mask s) (port s) (ngpio s).
Definition set_idr (v : Z) (s : STM32GPIOState) : STM32GPIOState :=
  mkState (moder s) (otyper s) (ospeedr s) (pupdr s) v (odr s) (lckr s)
          (aflr s) (afhr s) (in_ s) (in_mask s) (port s) (ngpio s).
Definition set_odr (v : Z) (s : STM32GPIOState) : STM32GPIOState :=
  mkState (moder s) (otyper s) (ospeedr s) (pupdr s) (idr s) v (lckr s)
          (aflr s) (afhr s) (in_ s) (in_mask s) (port s) (ngpio s).
Definition set_lckr (v : Z) (s : STM32GPIOState) : STM32GPIOState :=
  mkState (moder s) (otyper s) (ospeedr s) (pupdr s) (idr s) (odr s) v
          (aflr s) (afhr s) (in_ s) (in_mask s) (port s) (ngpio s).
Definition set_aflr (v : Z) (s : STM32GPIOState) : STM32GPIOState :=
  mkState (moder s) (otyper s) (ospeedr s) (pupdr s) (idr s) (odr s) (lckr s)
          v (afhr s) (in_ s) (in_mask s) (port s) (ngpio s).
Definition set_afhr (v : Z) (s : STM32GPIOState) : STM32GPIOState :=
  mkState (moder s) (otyper s) (ospeedr s) (pupdr s) (idr s) (odr s) (lckr s)
          (aflr s) v (in_ s) (in_mask s) (port s) (ngpio s).
Definition set_in (v : Z) (s : STM32GPIOState) : STM32GPIOState :=
  mkState (moder s) (otyper s) (ospeedr s) (pupdr s) (idr s) (odr s) (lckr s)
          (aflr s) (afhr s) v (in_mask s) (port s) (ngpio s).
Definition set_in_mask (v : Z) (s : STM32GPIOState) : STM32GPIOState :=
  mkState (moder s) (otyper s) (ospeedr s) (pupdr s) (idr s) (odr s) (lckr s)
          (aflr s) (afhr s) (in_ s) v (port s) (ngpio s).

(** ** Machine integers *)

(* Conversion to uint32_t (assignment of a wider value to a register). *)
Definition to_u32 (x : Z) : Z := Z.land x 0xFFFFFFFF.

(* Bitwise complement of a uint32_t and of a uint64_t. *)
Definition not32 (x : Z) : Z := to_u32 (Z.lnot x).
Definition not64 (x : Z) : Z := Z.land (Z.lnot x) 0xFFFFFFFFFFFFFFFF.

(* Conversion of an integer to C's bool. *)
Definition c_bool (x : Z) : bool := negb (x =? 0).

Definition u32 (x : Z) : Prop := 0 <= x < 2 ^ 32.

(** ** What the device sends out *)

Inductive event : Type :=
| Set_irq (pin : Z) (level : bool)      (* qemu_set_irq(s->output[pin], level) *)
| Guest_error_short (pin : Z)           (* "GPIO pin %zu short circuited" *)
| Guest_error_bad_read (offset : Z)     (* "bad read offset" *)
| Guest_error_bad_write (offset : Z)    (* "bad write offset" *)
| Trace_read (offset r : Z)             (* trace_stm32_gpio_read *)
| Trace_write (offset value : Z)        (* trace_stm32_gpio_write *)
| Trace_set (line value : Z).           (* trace_stm32_gpio_set *)

(* A failed assert() ends the run. *)
Inductive fault : Type :=
| Assert_bitfield    (* the range assertion of extract32 / deposit32 *)
| Assert_line.       (* the assertion on [line] in stm32_gpio_set *)

Inductive outcome (A : Type) : Type :=
| Done (a : A) (s : STM32GPIOState) (log : list event)
| Abort (f : fault).
Arguments Done {A} a s log.
Arguments Abort {A} f.

(** A device computation: it runs on the device state and either aborts
    or ends with a value, the new state and the events it produced, in
    order. *)
Definition M (A : Type) : Type := STM32GPIOState -> outcome A.

Definition ret {A} (a : A) : M A := fun s => Done a s [].

Definition bind {A B} (m : M A) (k : A -> M B) : M B :=
  fun s =>
    match m s with
    | Abort f => Abort f
    | Done a s1 log1 =>
        match k a s1 with
        | Abort f => Abort f
        | Done b s2 log2 => Done b s2 (log1 ++ log2)
        end
    end.

Definition get : M STM32GPIOState := fun s => Done s s [].
Definition modify (f : STM32GPIOState -> STM32GPIOState) : M unit :=
  fun s => Done tt (f s) [].
Definition emit (e : event) : M unit := fun s => Done tt s [e].
Definition assert (b : bool) (f : fault) : M unit :=
  fun s => if b then Done tt s [] else Abort f.
Definition when (b : bool) (m : M unit) : M unit :=
  if b then m else ret tt.

Declare Scope dev_scope.
Delimit Scope dev_scope with dev.
Notation "x <- m ;; k" := (bind m (fun x => k))
  (at level 61, m at next level, right associativity) : dev_scope.
Notation "m ;; k" := (bind m (fun _ => k))
  (at level 61, right associativity) : dev_scope.
Local Open Scope dev_scope.

(** ** Bit-field helpers of [qemu/bitops.h] *)

(** Modelled from the spec: [extract32] is declared in [qemu/bitops.h],
    which is not among the sources at hand.  The specification reads
    [extract32 r i 1] as "bit i of r" and [extract32 r (i*2) 2] as "the
    2-bit field at i*2"; the definition is the helper's usual one, the
    field of [length] bits of [value] starting at bit [start], with its
    assertion that the field lies inside the 32 bits, which is what puts
    the ceiling of 16 on the pin count. *)
Definition extract32 (value start length : Z) : M Z :=
  assert ((0 <=? start) && (0 <? length) && (length <=? 32 - start))
         Assert_bitfield ;;
  ret (Z.land (Z.shiftr value start) (Z.shiftr 0xFFFFFFFF (32 - length))).

(** Modelled from the spec: [deposit32] is declared in [qemu/bitops.h],
    which is not among the sources at hand.  The specification reads
    [deposit32 r i 1 b] as "r with bit i set to b"; the definition is the
    helper's usual one, [value] with the field of [length] bits at [start]
    replaced by the low bits of [fieldval], under the same assertion. *)
Definition deposit32 (value start length fieldval : Z) : M Z :=
  assert ((0 <=? start) && (0 <? length) && (length <=? 32 - start))
         Assert_bitfield ;;
  let mask := to_u32 (Z.shiftl (Z.shiftr 0xFFFFFFFF (32 - length)) start) in
  ret (Z.lor (Z.land value (not32 mask))
             (Z.land (to_u32 (Z.shiftl fieldval start)) mask)).

(** ** The resolution engine: [update_state] *)

(* One iteration of the loop of update_state, for pin [i]. *)
Definition update_pin (i : Z) : M unit :=
  s <- get ;;
  prev_id <- extract32 (idr s) i 1 ;;
  od      <- extract32 (odr s) i 1 ;;
  in'     <- extract32 (in_ s) i 1 ;;
  in_mask' <- extract32 (in_mask s) i 1 ;;
  mode    <- extract32 (moder s) (i * 2) 2 ;;
  pupd    <- extract32 (pupdr s) (i * 2) 2 ;;
  let prev_id := c_bool prev_id in
  let od := c_bool od in
  let in' := c_bool in' in
  let in_mask' := c_bool in_mask' in
  (* Pin both driven externally and internally *)
  when ((mode =? STM32_GPIO_MODE_OUTPUT) && in_mask')
       (emit (Guest_error_short i)) ;;
  let new_id :=
    if in_mask' then in'                              (* driven by external device *)
    else if mode =? STM32_GPIO_MODE_OUTPUT then od    (* driven by internal circuit *)
    else pupd =? STM32_GPIO_PULL_UP in                (* floating: pull-up resistor *)
  (* Update IDR *)
  v <- deposit32 (idr s) i 1 (Z.b2z new_id) ;;
  modify (set_idr v) ;;
  (* Trigger output interrupts *)
  when ((mode =? STM32_GPIO_MODE_OUTPUT) && negb (Bool.eqb new_id prev_id))
       (emit (Set_irq i new_id)).

(* for (size_t i = from; i < from + n; i++) body(i) *)
Fixpoint for_pins (n : nat) (i : Z) (body : Z -> M unit) : M unit :=
  match n with
  | O => ret tt
  | S n' => body i ;; for_pins n' (i + 1) body
  end.

Definition update_state : M unit :=
  s <- get ;;
  for_pins (Z.to_nat (ngpio s)) 0 update_pin.

(** ** Register interface: [stm32_gpio_read], [stm32_gpio_write] *)

Definition stm32_gpio_read (offset : Z) : M Z :=
  s <- get ;;
  r <- (if offset =? STM32_GPIO_REG_MODER then ret (moder s)
        else if offset =? STM32_GPIO_REG_OTYPER then ret (otyper s)
        else if offset =? STM32_GPIO_REG_OSPEEDR then ret (ospeedr s)
        else if offset =? STM32_GPIO_REG_PUPDR then ret (pupdr s)
        else if offset =? STM32_GPIO_REG_IDR then ret (idr s)
        else if offset =? STM32_GPIO_REG_ODR then ret (odr s)
        else if offset =? STM32_GPIO_REG_BSRR then ret 0   (* BSRR is write-only *)
        else if offset =? STM32_GPIO_REG_LCKR then ret (lckr s)
        else if offset =? STM32_GPIO_REG_AFRL then ret (aflr s)
        else if offset =? STM32_GPIO_REG_AFRH then ret (afhr s)
        else emit (Guest_error_bad_read offset) ;; ret 0) ;;
  emit (Trace_read offset r) ;;
  ret r.

(* The switch of stm32_gpio_write; [value] is a uint64_t, stored into
   uint32_t fields. *)
Definition write_register (offset value : Z) : M unit :=
  if offset =? STM32_GPIO_REG_MODER then modify (set_moder (to_u32 value))
  else if offset =? STM32_GPIO_REG_OTYPER then modify (set_otyper (to_u32 value))
  else if offset =? STM32_GPIO_REG_OSPEEDR then modify (set_ospeedr (to_u32 value))
  else if offset =? STM32_GPIO_REG_PUPDR then modify (set_pupdr (to_u32 value))
  else if offset =? STM32_GPIO_REG_IDR then ret tt         (* IDR is read-only *)
  else if offset =? STM32_GPIO_REG_ODR then modify (set_odr (to_u32 value))
  else if offset =? STM32_GPIO_REG_BSRR then
    (* s->odr &= ~((value >> 16) & 0xFFFF); *)
    modify (fun s => set_odr (to_u32 (Z.land (odr s)
                        (not64 (Z.land (Z.shiftr value 16) 0xFFFF)))) s) ;;
    (* s->odr |= value & 0xFFFF; *)
    modify (fun s => set_odr (to_u32 (Z.lor (odr s) (Z.land value 0xFFFF))) s)
  else if offset =? STM32_GPIO_REG_LCKR then modify (set_lckr (to_u32 value))
  else if offset =? STM32_GPIO_REG_AFRL then modify (set_aflr (to_u32 value))
  else if offset =? STM32_GPIO_REG_AFRH then modify (set_afhr (to_u32 value))
  else emit (Guest_error_bad_write offset).

Definition stm32_gpio_write (offset value : Z) : M unit :=
  emit (Trace_write offset value) ;;
  write_register offset value ;;
  update_state.

(** ** External signal interface: [stm32_gpio_set] *)

Definition stm32_gpio_set (line value : Z) : M unit :=
  emit (Trace_set line value) ;;
  assert ((0 <=? line) && (line <? STM32_GPIO_NPINS)) Assert_line ;;
  s <- get ;;
  m <- deposit32 (in_mask s) line 1 (Z.b2z (0 <=? value)) ;;
  modify (set_in_mask m) ;;
  when (0 <=? value)
       (s <- get ;;
        v <- deposit32 (in_ s) line 1 (Z.b2z (negb (value =? 0))) ;;
        modify (set_in v)) ;;
  update_state.

(** ** Reset: [stm32_gpio_reset] *)

Definition stm32_gpio_reset : M unit :=
  s <- get ;;
  (* Reset values of ODR, OSPEEDR, and PUPDR depends on GPIO port *)
  (if port s =? STM32_GPIO_PORT_A then
     modify (set_odr 0xA8000000) ;;
     modify (set_ospeedr 0) ;;
     modify (set_pupdr 0x64000000)
   else if port s =? STM32_GPIO_PORT_B then
     modify (set_odr 0x00000280) ;;
     modify (set_ospeedr 0x000000C0) ;;
     modify (set_pupdr 0x00000100)
   else
     modify (set_odr 0) ;;
     modify (set_ospeedr 0) ;;
     modify (set_pupdr 0)) ;;
  modify (set_otyper 0) ;;
  modify (set_idr 0) ;;
  modify (set_odr 0) ;;
  modify (set_lckr 0) ;;
  modify (set_aflr 0) ;;
  modify (set_afhr 0) ;;
  modify (set_in 0) ;;
  modify (set_in_mask 0).

(** ** Reading the outcomes *)

(* The ten offsets of the address map. *)
Definition defined_offset (offset : Z) : bool :=
  existsb (Z.eqb offset)
    [STM32_GPIO_REG_MODER; STM32_GPIO_REG_OTYPER; STM32_GPIO_REG_OSPEEDR;
     STM32_GPIO_REG_PUPDR; STM32_GPIO_REG_IDR; STM32_GPIO_REG_ODR;
     STM32_GPIO_REG_BSRR; STM32_GPIO_REG_LCKR; STM32_GPIO_REG_AFRL;
     STM32_GPIO_REG_AFRH].

(* The 2-bit field of pin [i] in a packed register. *)
Definition field2 (reg i : Z) : Z := Z.land (Z.shiftr reg (i * 2)) 3.

(** The resolution function as the specification words it (section 4.2):
    the external level where the pin is driven from outside, else the
    requested output level where the pin is an output, else high exactly
    under a pull-up.  It is compared with [update_state] below. *)
Definition spec_resolve (moder pupdr odr in_ in_mask : Z) (i : Z) : bool :=
  if Z.testbit in_mask i then Z.testbit in_ i
  else if field2 moder i =? STM32_GPIO_MODE_OUTPUT then Z.testbit odr i
  else field2 pupdr i =? STM32_GPIO_PULL_UP.

Definition resolved (s : STM32GPIOState) (i : Z) : bool :=
  spec_resolve (moder s) (pupdr s) (odr s) (in_ s) (in_mask s) i.

(* IDR agrees with the resolution of the other registers on every pin of
   the bank. *)
Definition idr_consistent (s : STM32GPIOState) : Prop :=
  forall i, 0 <= i < ngpio s -> Z.testbit (idr s) i = resolved s i.

(* The output-changed notifications of a log for one pin, and all the
   notifications and diagnostics of a log (the trace points left out). *)
Definition is_irq_of (i : Z) (e : event) : bool :=
  match e with Set_irq p _ => p =? i | _ => false end.

Definition irq_count (i : Z) (log : list event) : nat :=
  length (filter (is_irq_of i) log).

Definition is_trace (e : event) : bool :=
  match e with
  | Trace_read _ _ | Trace_write _ _ | Trace_set _ _ => true
  | _ => false
  end.

Definition notifications (log : list event) : list event :=
  filter (fun e => negb (is_trace e)) log.

(* A freshly created instance: all-zero registers. *)
Definition fresh (p n : Z) : STM32GPIOState :=
  mkState 0 0 0 0 0 0 0 0 0 0 0 p n.

(** ** Closed forms used in the statements *)

(* [deposit32 v i 1 b] in closed form. *)
Definition set_bit32 (v i : Z) (b : bool) : Z :=
  Z.lor (Z.land v (not32 (to_u32 (Z.shiftl 1 i))))
        (Z.land (to_u32 (Z.shiftl (Z.b2z b) i)) (to_u32 (Z.shiftl 1 i))).

(* What iteration [i] of update_state sends out, from the state it starts
   in: the short-circuit diagnostic, then the notification of a changed
   output. *)
Definition pin_log (s : STM32GPIOState) (i : Z) : list event :=
  (if (field2 (moder s) i =? STM32_GPIO_MODE_OUTPUT) && Z.testbit (in_mask s) i
   then [Guest_error_short i] else []) ++
  (if (field2 (moder s) i =? STM32_GPIO_MODE_OUTPUT)
      && negb (Bool.eqb (resolved s i) (Z.testbit (idr s) i))
   then [Set_irq i (resolved s i)] else []).

(* The pins visited by [for_pins n i]. *)
Fixpoint pins (n : nat) (i : Z) : list Z :=
  match n with
  | O => []
  | S n' => i :: pins n' (i + 1)
  end.

(* What a whole run of update_state sends out, pin after pin. *)
Definition run_log (s : STM32GPIOState) : list event :=
  flat_map (pin_log s) (pins (Z.to_nat (ngpio s)) 0).

(* The drive vectors as stm32_gpio_set leaves them before the engine
   runs. *)
Definition drive (line value : Z) (s : STM32GPIOState) : STM32GPIOState :=
  let s1 := set_in_mask (set_bit32 (in_mask s) line (0 <=? value)) s in
  if 0 <=? value
  then set_in (set_bit32 (in_ s1) line (negb (value =? 0))) s1
  else s1.

(* ODR after a write of [v] to the set/reset register, as the two
   assignments of the source compute it. *)
Definition bsrr_odr (odr v : Z) : Z :=
  to_u32 (Z.lor (to_u32 (Z.land odr (not64 (Z.land (Z.shiftr v 16) 0xFFFF))))
                (Z.land v 0xFFFF)).

(** The set/reset write as the specification words it (section 4.1): first
    clear the ODR bits named by the high half of [v], then OR in the low
    half. *)
Definition spec_bsrr (odr v : Z) : Z :=
  Z.lor (Z.ldiff odr (Z.shiftr v 16)) (Z.land v 0xFFFF).

(* An outcome with the trace points taken out of its log. *)
Definition observable {A} (o : outcome A) : outcome A :=
  match o with
  | Done a s log => Done a s (notifications log)
  | Abort f => Abort f
  end.

(* The eight registers that a write replaces wholesale and a read gives
   back: the cases of both switches that name the same field. *)
Definition storage_offset (offset : Z) : bool :=
  existsb (Z.eqb offset)
    [STM32_GPIO_REG_MODER; STM32_GPIO_REG_OTYPER; STM32_GPIO_REG_OSPEEDR;
     STM32_GPIO_REG_PUPDR; STM32_GPIO_REG_ODR; STM32_GPIO_REG_LCKR;
     STM32_GPIO_REG_AFRL; STM32_GPIO_REG_AFRH].

(* The offsets whose write touches none of the fields update_state reads:
   the four registers it never looks at, the read-only IDR, and every
   undefined offset. *)
Definition passive_offset (offset : Z) : bool :=
  negb (existsb (Z.eqb offset)
    [STM32_GPIO_REG_MODER; STM32_GPIO_REG_PUPDR; STM32_GPIO_REG_ODR;
     STM32_GPIO_REG_BSRR]).

(* All registers and both drive vectors hold 32-bit values, as their C
   type says. *)
Definition u32_state (s : STM32GPIOState) : Prop :=
  u32 (moder s) /\ u32 (otyper s) /\ u32 (ospeedr s) /\ u32 (pupdr s) /\
  u32 (idr s) /\ u32 (odr s) /\ u32 (lckr s) /\ u32 (aflr s) /\
  u32 (afhr s) /\ u32 (in_ s) /\ u32 (in_mask s).

(* The events update_state itself can produce. *)
Definition is_engine_event (e : event) : bool :=
  match e with
  | Set_irq _ _ | Guest_error_short _ => true
  | _ => false
  end.

(* A bank at rest after some traffic: pin 1 pulled up, pin 2 an output
   held high, pin 5 driven high from outside. *)
Definition busy_bank : STM32GPIOState :=
  mkState 0x10 0 0 0x4 0x26 0x4 0 0 0 0x20 0x20 STM32_GPIO_PORT_B 16.

(** ** Banks used as examples *)

(* A bank with pin 0 an output driven high by ODR and pin 1 pulled up and
   driven high from outside. *)
Definition example_bank : STM32GPIOState :=
  mkState 0x1 0 0 0x4 0 0x1 0 0 0 0x2 0x2 2 16.

(* A port-A bank right after its cold-start reset. *)
Definition port_a_after_reset : STM32GPIOState :=
  mkState 0 0 0 0x64000000 0 0 0 0 0 0 0 STM32_GPIO_PORT_A 16.

(* A port-A bank whose guest has made pin 0 an output. *)
Definition port_a_pin0_output : STM32GPIOState :=
  mkState 0x1 0 0 0x64000000 0xA000 0 0 0 0 0 0 STM32_GPIO_PORT_A 16.

(* A bank configured with eight pins. *)
Definition eight_pin_bank : STM32GPIOState := fresh 2 8.

(* A bank whose pin 0 is ANALOG with the reserved pull value 3 and whose
   pin 1 is an alternate-function pin with a pull-up. *)
Definition reserved_pull_bank : STM32GPIOState :=
  mkState 0xB 0 0 0x7 0 0x3 0 0 0 0 0 2 16.

(** * Properties *)

(** ** Bits of machine integers *)

Lemma testbit_to_u32 (x j : Z) :
  0 <= j -> Z.testbit (to_u32 x) j = Z.testbit x j && (j <? 32).
Proof.
  intros Hj. unfold to_u32.
  change 0xFFFFFFFF with (Z.ones 32).
  rewrite Z.land_spec, Z.testbit_ones_nonneg by lia. reflexivity.
Qed.

Lemma to_u32_range (x : Z) : u32 (to_u32 x).
Proof.
  unfold u32, to_u32. change 0xFFFFFFFF with (Z.ones 32).
  rewrite Z.land_ones by lia. apply Z.mod_pos_bound. lia.
Qed.

Lemma to_u32_small (x : Z) : u32 x -> to_u32 x = x.
Proof.
  unfold u32, to_u32. intros H. change 0xFFFFFFFF with (Z.ones 32).
  rewrite Z.land_ones by lia. apply Z.mod_small. exact H.
Qed.

Lemma u32_testbit_high (x j : Z) : u32 x -> 32 <= j -> Z.testbit x j = false.
Proof.
  intros H Hj. rewrite <- (to_u32_small x H), testbit_to_u32 by lia.
  replace (j <? 32) with false by (symmetry; apply Z.ltb_ge; lia).
  apply andb_false_r.
Qed.

Lemma c_bool_b2z (b : bool) : c_bool (Z.b2z b) = b.
Proof. destruct b; reflexivity. Qed.

Lemma land_shiftr_1 (v i : Z) :
  0 <= i -> Z.land (Z.shiftr v i) 1 = Z.b2z (Z.testbit v i).
Proof.
  intros Hi. change 1 with (Z.ones 1) at 1.
  rewrite Z.land_ones by lia. change (2 ^ 1) with 2.
  rewrite <- Z.bit0_mod, Z.shiftr_spec by lia. reflexivity.
Qed.

Lemma testbit_shiftl_b2z (b : bool) (i j : Z) :
  0 <= i -> 0 <= j -> Z.testbit (Z.shiftl (Z.b2z b) i) j = b && (j =? i).
Proof.
  intros Hi Hj. rewrite Z.shiftl_spec by lia.
  destruct (Z.eqb_spec j i) as [->|Hne].
  - rewrite Z.sub_diag, Z.b2z_bit0. now rewrite andb_true_r.
  - rewrite andb_false_r.
    destruct (Z_lt_le_dec j i).
    + apply Z.testbit_neg_r. lia.
    + destruct b; cbn [Z.b2z].
      * change 1 with (2 ^ 0). rewrite Z.pow2_bits_eqb by lia.
        apply Z.eqb_neq. lia.
      * apply Z.testbit_0_l.
Qed.

Lemma testbit_shiftl_1 (i j : Z) :
  0 <= i -> 0 <= j -> Z.testbit (Z.shiftl 1 i) j = (j =? i).
Proof. intros Hi Hj. apply (testbit_shiftl_b2z true); assumption. Qed.

Lemma testbit_set_bit32 (v i j : Z) (b : bool) :
  0 <= i < 32 -> 0 <= j ->
  Z.testbit (set_bit32 v i b) j =
  if j =? i then b else Z.testbit v j && (j <? 32).
Proof.
  intros Hi Hj. unfold set_bit32, not32.
  rewrite Z.lor_spec, !Z.land_spec, !testbit_to_u32, Z.lnot_spec by lia.
  rewrite testbit_to_u32, testbit_shiftl_1, testbit_shiftl_b2z by lia.
  destruct (Z.eqb_spec j i) as [->|Hne].
  - replace (i <? 32) with true by (symmetry; apply Z.ltb_lt; lia).
    destruct b, (Z.testbit v i); reflexivity.
  - destruct b, (Z.testbit v j), (j <? 32); reflexivity.
Qed.

Lemma u32_of_bits (x : Z) :
  (forall j, 0 <= j -> Z.testbit x j = Z.testbit x j && (j <? 32)) -> u32 x.
Proof.
  intros H. replace x with (to_u32 x); [apply to_u32_range|].
  apply Z.bits_inj'. intros j Hj. rewrite testbit_to_u32 by lia.
  symmetry. apply H, Hj.
Qed.

Lemma set_bit32_range (v i : Z) (b : bool) :
  0 <= i < 32 -> u32 (set_bit32 v i b).
Proof.
  intros Hi. apply u32_of_bits. intros j Hj.
  rewrite testbit_set_bit32 by lia.
  destruct (Z.eqb_spec j i) as [->|Hne].
  - replace (i <? 32) with true by (symmetry; apply Z.ltb_lt; lia).
    now rewrite andb_true_r.
  - destruct (Z.testbit v j), (j <? 32); reflexivity.
Qed.

(* Writing back the bit that is already there changes nothing. *)
Lemma set_bit32_same (v i : Z) :
  u32 v -> 0 <= i < 32 -> set_bit32 v i (Z.testbit v i) = v.
Proof.
  intros Hv Hi. apply Z.bits_inj'. intros j Hj.
  rewrite testbit_set_bit32 by lia.
  destruct (Z.eqb_spec j i) as [->|Hne]; [reflexivity|].
  destruct (Z.ltb_spec j 32).
  - apply andb_true_r.
  - rewrite andb_false_r. symmetry. now apply u32_testbit_high.
Qed.

(** ** Running the primitives *)

Lemma range_check_ok (start len : Z) :
  0 <= start -> 0 < len -> len <= 32 - start ->
  (0 <=? start) && (0 <? len) && (len <=? 32 - start) = true.
Proof.
  intros. rewrite !andb_true_iff, !Z.leb_le, Z.ltb_lt. lia.
Qed.

Lemma extract32_bit (v i : Z) (s : STM32GPIOState) :
  0 <= i < 32 -> extract32 v i 1 s = Done (Z.b2z (Z.testbit v i)) s [].
Proof.
  intros Hi. unfold extract32, bind, assert, ret.
  rewrite range_check_ok by lia.
  cbn [app]. change (Z.shiftr 0xFFFFFFFF (32 - 1)) with 1.
  rewrite land_shiftr_1 by lia. reflexivity.
Qed.

Lemma extract32_field (v i : Z) (s : STM32GPIOState) :
  0 <= i < 16 -> extract32 v (i * 2) 2 s = Done (field2 v i) s [].
Proof.
  intros Hi. unfold extract32, bind, assert, ret.
  rewrite range_check_ok by lia.
  reflexivity.
Qed.

(* Beyond pin 15 the 2-bit field lies outside the register. *)
Lemma extract32_field_abort (v i : Z) (s : STM32GPIOState) :
  16 <= i -> extract32 v (i * 2) 2 s = Abort Assert_bitfield.
Proof.
  intros Hi. unfold extract32, bind, assert.
  replace (2 <=? 32 - i * 2) with false by (symmetry; apply Z.leb_gt; lia).
  now rewrite andb_false_r.
Qed.

Lemma deposit32_bit (v i : Z) (b : bool) (s : STM32GPIOState) :
  0 <= i < 32 -> deposit32 v i 1 (Z.b2z b) s = Done (set_bit32 v i b) s [].
Proof.
  intros Hi. unfold deposit32, bind, assert, ret.
  rewrite range_check_ok by lia.
  reflexivity.
Qed.

Lemma when_emit (b : bool) (e : event) (s : STM32GPIOState) :
  when b (emit e) s = Done tt s (if b then [e] else []).
Proof. destruct b; reflexivity. Qed.

(** ** One pin of the resolution engine *)

Lemma update_pin_run (s : STM32GPIOState) (i : Z) :
  0 <= i < 16 ->
  update_pin i s =
  Done tt (set_idr (set_bit32 (idr s) i (resolved s i)) s) (pin_log s i).
Proof.
  intros Hi. unfold update_pin, bind, get.
  repeat (cbv beta iota; rewrite ?extract32_bit, ?extract32_field by lia).
  rewrite !c_bool_b2z, when_emit.
  cbv beta iota. rewrite deposit32_bit by lia.
  unfold modify. cbv beta iota. rewrite when_emit.
  reflexivity.
Qed.

Lemma update_pin_abort (s : STM32GPIOState) (i : Z) :
  16 <= i -> update_pin i s = Abort Assert_bitfield.
Proof.
  intros Hi. unfold update_pin, bind, get. cbv beta iota.
  destruct (Z_lt_le_dec i 32) as [Hlt|Hge].
  - repeat (cbv beta iota; rewrite ?extract32_bit by lia).
    now rewrite extract32_field_abort by lia.
  - unfold extract32 at 1. unfold bind, assert.
    replace (1 <=? 32 - i) with false by (symmetry; apply Z.leb_gt; lia).
    now rewrite andb_false_r.
Qed.

Lemma set_idr_same (s : STM32GPIOState) : set_idr (idr s) s = s.
Proof. destruct s; reflexivity. Qed.

Lemma pin_log_set_idr (v : Z) (s : STM32GPIOState) (j : Z) :
  Z.testbit v j = Z.testbit (idr s) j -> pin_log (set_idr v s) j = pin_log s j.
Proof.
  intros H. unfold pin_log, resolved. cbn [set_idr moder pupdr odr in_ in_mask idr].
  now rewrite H.
Qed.

(** ** The loop over the pins *)

Lemma in_pins (n : nat) : forall i j, In j (pins n i) <-> i <= j < i + Z.of_nat n.
Proof.
  induction n as [|n IH]; intros i j; cbn [pins In].
  - lia.
  - rewrite IH. lia.
Qed.

Lemma flat_map_pins_ext {A} (f g : Z -> list A) (n : nat) (i : Z) :
  (forall j, i <= j < i + Z.of_nat n -> f j = g j) ->
  flat_map f (pins n i) = flat_map g (pins n i).
Proof.
  revert i. induction n as [|n IH]; intros i H; cbn [pins flat_map].
  - reflexivity.
  - rewrite H by lia. f_equal. apply IH. intros j Hj. apply H. lia.
Qed.

Lemma for_pins_run (n : nat) : forall (i : Z) (s : STM32GPIOState),
  0 <= i -> i + Z.of_nat n <= 16 ->
  exists v,
    for_pins n i update_pin s
      = Done tt (set_idr v s) (flat_map (pin_log s) (pins n i)) /\
    (forall j, 0 <= j < 32 ->
       Z.testbit v j = if (i <=? j) && (j <? i + Z.of_nat n)
                       then resolved s j else Z.testbit (idr s) j) /\
    (n = O -> v = idr s) /\
    (n <> O -> u32 v).
Proof.
  induction n as [|n IH]; intros i s Hi Hn.
  - exists (idr s). cbn [for_pins pins flat_map]. unfold ret.
    rewrite set_idr_same. repeat split; try congruence.
    intros j Hj.
    replace ((i <=? j) && (j <? i + Z.of_nat 0)) with false; [reflexivity|].
    symmetry. apply andb_false_iff. rewrite Z.leb_gt, Z.ltb_ge. lia.
  - cbn [for_pins]. unfold bind. rewrite update_pin_run by lia.
    set (s1 := set_idr (set_bit32 (idr s) i (resolved s i)) s).
    destruct (IH (i + 1) s1) as (v & Hrun & Hbits & Hzero & Hpos); [lia|lia|].
    rewrite Hrun. exists v. split; [|split; [|split]].
    + cbn [pins flat_map]. f_equal. f_equal.
      apply flat_map_pins_ext. intros j Hj. apply pin_log_set_idr.
      rewrite testbit_set_bit32 by lia.
      replace (j =? i) with false by (symmetry; apply Z.eqb_neq; lia).
      replace (j <? 32) with true by (symmetry; apply Z.ltb_lt; lia).
      apply andb_true_r.
    + intros j Hj. rewrite Hbits by lia.
      change (resolved s1 j) with (resolved s j).
      change (idr s1) with (set_bit32 (idr s) i (resolved s i)).
      rewrite testbit_set_bit32 by lia.
      destruct (Z.eqb_spec j i) as [->|Hne].
      * replace ((i + 1 <=? i) && (i <? i + 1 + Z.of_nat n)) with false
          by (symmetry; apply andb_false_iff; rewrite Z.leb_gt; lia).
        replace ((i <=? i) && (i <? i + Z.of_nat (S n))) with true
          by (symmetry; apply andb_true_iff; rewrite Z.leb_le, Z.ltb_lt; lia).
        reflexivity.
      * replace (j <? 32) with true by (symmetry; apply Z.ltb_lt; lia).
        rewrite andb_true_r.
        replace (i + 1 <=? j) with (i <=? j)
          by (destruct (Z.leb_spec i j), (Z.leb_spec (i + 1) j); lia || reflexivity).
        replace (i + 1 + Z.of_nat n) with (i + Z.of_nat (S n)) by lia.
        reflexivity.
    + discriminate.
    + intros _. destruct n as [|n'].
      * rewrite Hzero by reflexivity. apply set_bit32_range. lia.
      * apply Hpos. discriminate.
Qed.

Lemma for_pins_abort (n : nat) : forall (i : Z) (s : STM32GPIOState),
  0 <= i <= 16 -> 16 < i + Z.of_nat n ->
  for_pins n i update_pin s = Abort Assert_bitfield.
Proof.
  induction n as [|n IH]; intros i s Hi Hn; [lia|].
  cbn [for_pins]. unfold bind.
  destruct (Z.eq_dec i 16) as [->|Hne].
  - now rewrite update_pin_abort by lia.
  - rewrite update_pin_run by lia. rewrite IH by lia. reflexivity.
Qed.

(** ** [update_state] in closed form *)

Lemma update_state_run (s : STM32GPIOState) :
  ngpio s <= STM32_GPIO_NPINS ->
  exists v,
    update_state s = Done tt (set_idr v s) (run_log s) /\
    (forall j, 0 <= j < 32 ->
       Z.testbit v j = if j <? ngpio s then resolved s j
                       else Z.testbit (idr s) j) /\
    (ngpio s <= 0 -> v = idr s) /\
    (0 < ngpio s -> u32 v).
Proof.
  unfold STM32_GPIO_NPINS. intros Hn. unfold update_state, bind, get.
  cbv beta iota.
  destruct (for_pins_run (Z.to_nat (ngpio s)) 0 s) as (v & Hrun & Hbits & Hz & Hp);
    [lia|lia|].
  rewrite Hrun. exists v. split; [reflexivity|split; [|split]].
  - intros j Hj. rewrite Hbits by lia.
    replace (0 <=? j) with true by (symmetry; apply Z.leb_le; lia).
    cbn [andb]. replace (0 + Z.of_nat (Z.to_nat (ngpio s)) ) with (Z.max 0 (ngpio s)) by lia.
    destruct (Z.ltb_spec j (ngpio s)), (Z.ltb_spec j (Z.max 0 (ngpio s)));
      lia || reflexivity.
  - intros H0. apply Hz. lia.
  - intros H0. apply Hp. lia.
Qed.

Lemma update_state_abort (s : STM32GPIOState) :
  STM32_GPIO_NPINS < ngpio s -> update_state s = Abort Assert_bitfield.
Proof.
  unfold STM32_GPIO_NPINS. intros Hn. unfold update_state, bind, get.
  cbv beta iota. rewrite for_pins_abort by lia. reflexivity.
Qed.

(* The engine leaves a state whose IDR agrees with the resolution, and a
   state that already agrees is left as it is. *)
Lemma update_state_spec (s : STM32GPIOState) :
  ngpio s <= STM32_GPIO_NPINS ->
  exists v,
    update_state s = Done tt (set_idr v s) (run_log s) /\
    idr_consistent (set_idr v s) /\
    (forall i, 0 <= i < ngpio s -> Z.testbit v i = resolved s i) /\
    (ngpio s <= 0 \/ u32 v) /\
    (idr_consistent s -> ngpio s <= 0 \/ u32 (idr s) -> v = idr s).
Proof.
  intros Hn. destruct (update_state_run s Hn) as (v & Hrun & Hbits & Hz & Hp).
  unfold STM32_GPIO_NPINS in Hn.
  assert (Hres : forall i, 0 <= i < ngpio s -> Z.testbit v i = resolved s i).
  { intros i Hi. rewrite Hbits by lia.
    replace (i <? ngpio s) with true by (symmetry; apply Z.ltb_lt; lia).
    reflexivity. }
  exists v. split; [exact Hrun|]. split; [|split; [exact Hres|split]].
  - intros i Hi. cbn [set_idr ngpio idr] in *.
    change (resolved (set_idr v s) i) with (resolved s i). now apply Hres.
  - destruct (Z_le_gt_dec (ngpio s) 0); [left; assumption|right; apply Hp; lia].
  - intros Hc [H0|Hu]; [now apply Hz|].
    destruct (Z_le_gt_dec (ngpio s) 0) as [H0|H0]; [now apply Hz|].
    apply Z.bits_inj'. intros j Hj.
    destruct (Z_lt_le_dec j 32) as [Hlt|Hge].
    + rewrite Hbits by lia.
      destruct (Z.ltb_spec j (ngpio s)); [|reflexivity].
      symmetry. apply Hc. lia.
    + rewrite !u32_testbit_high; auto. apply Hp. lia.
Qed.

(** ** The registers as the accesses leave them *)

Lemma write_register_run (offset value : Z) (s : STM32GPIOState) :
  exists s1,
    write_register offset value s
      = Done tt s1 (if defined_offset offset then []
                    else [Guest_error_bad_write offset]) /\
    ngpio s1 = ngpio s /\ port s1 = port s /\ idr s1 = idr s /\
    in_ s1 = in_ s /\ in_mask s1 = in_mask s /\
    (defined_offset offset = false -> s1 = s).
Proof.
  unfold write_register, defined_offset. cbn [existsb].
  repeat match goal with
         | |- context [offset =? ?c] => destruct (offset =? c); cbn [orb]
         end;
    try (eexists; split; [reflexivity|];
         repeat split; intros; discriminate || reflexivity).
Qed.

Lemma stm32_gpio_write_run (offset value : Z) (s : STM32GPIOState) :
  ngpio s <= STM32_GPIO_NPINS ->
  exists s1 v,
    write_register offset value s
      = Done tt s1 (if defined_offset offset then []
                    else [Guest_error_bad_write offset]) /\
    stm32_gpio_write offset value s
      = Done tt (set_idr v s1)
             (Trace_write offset value ::
              (if defined_offset offset then []
               else [Guest_error_bad_write offset]) ++ run_log s1) /\
    ngpio s1 = ngpio s /\
    idr_consistent (set_idr v s1) /\
    (ngpio s <= 0 \/ u32 v) /\
    (idr_consistent s1 -> ngpio s <= 0 \/ u32 (idr s1) -> v = idr s1).
Proof.
  intros Hn.
  destruct (write_register_run offset value s)
    as (s1 & Hreg & Hng & _ & _ & _ & _ & _).
  destruct (update_state_spec s1) as (v & Hrun & Hc & _ & Hu & Hst);
    [rewrite Hng; exact Hn|].
  exists s1, v. split; [exact Hreg|]. rewrite Hng in *.
  split; [|auto].
  unfold stm32_gpio_write, bind, emit. rewrite Hreg, Hrun. reflexivity.
Qed.

Lemma stm32_gpio_write_idr (value : Z) (s : STM32GPIOState) :
  stm32_gpio_write STM32_GPIO_REG_IDR value s =
  match update_state s with
  | Done _ s' log => Done tt s' (Trace_write STM32_GPIO_REG_IDR value :: log)
  | Abort f => Abort f
  end.
Proof.
  unfold stm32_gpio_write, bind, emit.
  change (write_register STM32_GPIO_REG_IDR value s) with (Done tt s []).
  cbv beta iota. destruct (update_state s) as [[] s' log|f]; reflexivity.
Qed.

Lemma stm32_gpio_set_unfold (line value : Z) (s : STM32GPIOState) :
  0 <= line < STM32_GPIO_NPINS ->
  stm32_gpio_set line value s =
  match update_state (drive line value s) with
  | Done _ s' log => Done tt s' (Trace_set line value :: log)
  | Abort f => Abort f
  end.
Proof.
  unfold STM32_GPIO_NPINS. intros Hl.
  unfold stm32_gpio_set, bind, emit, assert, get, STM32_GPIO_NPINS.
  replace ((0 <=? line) && (line <? 16)) with true
    by (symmetry; rewrite andb_true_iff, Z.leb_le, Z.ltb_lt; lia).
  cbv beta iota. rewrite deposit32_bit by lia.
  unfold modify at 1. cbv beta iota.
  unfold drive, when.
  destruct (0 <=? value).
  - cbv beta iota. rewrite deposit32_bit by lia.
    unfold modify. cbv beta iota.
    destruct (update_state _) as [[] s' log|f]; reflexivity.
  - unfold ret. cbv beta iota.
    destruct (update_state _) as [[] s' log|f]; reflexivity.
Qed.

Lemma ngpio_drive (line value : Z) (s : STM32GPIOState) :
  ngpio (drive line value s) = ngpio s.
Proof. unfold drive. destruct (0 <=? value); reflexivity. Qed.

Lemma stm32_gpio_set_run (line value : Z) (s : STM32GPIOState) :
  0 <= line < STM32_GPIO_NPINS -> ngpio s <= STM32_GPIO_NPINS ->
  exists v,
    stm32_gpio_set line value s
      = Done tt (set_idr v (drive line value s))
             (Trace_set line value :: run_log (drive line value s)) /\
    idr_consistent (set_idr v (drive line value s)).
Proof.
  intros Hl Hn.
  destruct (update_state_spec (drive line value s)) as (v & Hrun & Hc & _);
    [rewrite ngpio_drive; exact Hn|].
  exists v. split; [|exact Hc].
  rewrite stm32_gpio_set_unfold, Hrun by exact Hl. reflexivity.
Qed.

Lemma stm32_gpio_set_abort (line value : Z) (s : STM32GPIOState) :
  ~ (0 <= line < STM32_GPIO_NPINS) ->
  stm32_gpio_set line value s = Abort Assert_line.
Proof.
  unfold STM32_GPIO_NPINS. intros Hl.
  unfold stm32_gpio_set, bind, emit, assert, STM32_GPIO_NPINS.
  replace ((0 <=? line) && (line <? 16)) with false; [reflexivity|].
  symmetry. rewrite andb_false_iff, Z.leb_gt, Z.ltb_ge. lia.
Qed.

Lemma stm32_gpio_set_abort_bitfield (line value : Z) (s : STM32GPIOState) :
  0 <= line < STM32_GPIO_NPINS -> STM32_GPIO_NPINS < ngpio s ->
  stm32_gpio_set line value s = Abort Assert_bitfield.
Proof.
  intros Hl Hn.
  rewrite stm32_gpio_set_unfold, update_state_abort; auto.
  now rewrite ngpio_drive.
Qed.

Lemma stm32_gpio_reset_run (s : STM32GPIOState) :
  stm32_gpio_reset s =
  Done tt
    (mkState (moder s) 0
       (if port s =? STM32_GPIO_PORT_A then 0
        else if port s =? STM32_GPIO_PORT_B then 0x000000C0 else 0)
       (if port s =? STM32_GPIO_PORT_A then 0x64000000
        else if port s =? STM32_GPIO_PORT_B then 0x00000100 else 0)
       0 0 0 0 0 0 0 (port s) (ngpio s))
    [].
Proof.
  unfold stm32_gpio_reset, bind, get. cbv beta iota.
  destruct (port s =? STM32_GPIO_PORT_A); [reflexivity|].
  destruct (port s =? STM32_GPIO_PORT_B); reflexivity.
Qed.

Lemma stm32_gpio_read_undefined (offset : Z) (s : STM32GPIOState) :
  defined_offset offset = false ->
  stm32_gpio_read offset s
  = Done 0 s [Guest_error_bad_read offset; Trace_read offset 0].
Proof.
  unfold defined_offset. cbn [existsb]. intros H.
  repeat (apply orb_false_elim in H; destruct H as [?E H]).
  unfold stm32_gpio_read, bind, get. cbv beta iota.
  rewrite E, E0, E1, E2, E3, E4, E5, E6, E7, E8. reflexivity.
Qed.

(** ** Counting the output-changed notifications *)

Lemma irq_count_app (i : Z) (l1 l2 : list event) :
  irq_count i (l1 ++ l2) = (irq_count i l1 + irq_count i l2)%nat.
Proof. unfold irq_count. now rewrite filter_app, length_app. Qed.

Lemma irq_count_pin_log (s : STM32GPIOState) (i j : Z) :
  (irq_count i (pin_log s j) <= 1)%nat /\
  (i <> j -> irq_count i (pin_log s j) = 0%nat) /\
  (Z.testbit (idr s) j = resolved s j -> irq_count i (pin_log s j) = 0%nat).
Proof.
  unfold pin_log. rewrite irq_count_app.
  assert (H0 : forall b : bool,
             irq_count i (if b then [Guest_error_short j] else []) = 0%nat)
    by (intros []; reflexivity).
  rewrite H0. cbn [Nat.add].
  destruct (field2 (moder s) j =? STM32_GPIO_MODE_OUTPUT); cbn [andb];
    [|split; [|split]; intros; cbn; lia].
  destruct (Bool.eqb (resolved s j) (Z.testbit (idr s) j)) eqn:E; cbn [negb];
    [split; [|split]; intros; cbn; lia|].
  unfold irq_count. cbn [filter is_irq_of].
  split; [|split].
  - destruct (j =? i); cbn [length]; lia.
  - intros Hne. replace (j =? i) with false; [reflexivity|].
    symmetry. apply Z.eqb_neq. congruence.
  - intros H. rewrite H, Bool.eqb_reflx in E. discriminate.
Qed.

Lemma irq_count_pins (s : STM32GPIOState) (i : Z) (n : nat) : forall k,
  (irq_count i (flat_map (pin_log s) (pins n k)) <= 1)%nat /\
  (i < k -> irq_count i (flat_map (pin_log s) (pins n k)) = 0%nat).
Proof.
  induction n as [|n IH]; intros k; cbn [pins flat_map].
  - split; intros; cbn; lia.
  - rewrite irq_count_app.
    destruct (IH (k + 1)) as [IH1 IH2].
    destruct (irq_count_pin_log s i k) as (H1 & H2 & _).
    split.
    + destruct (Z.eq_dec i k) as [->|Hne].
      * rewrite IH2 by lia. lia.
      * rewrite H2 by exact Hne. lia.
    + intros Hlt. rewrite H2, IH2 by lia. reflexivity.
Qed.

Lemma irq_count_run_log (s : STM32GPIOState) (i : Z) :
  (irq_count i (run_log s) <= 1)%nat.
Proof. apply irq_count_pins. Qed.

(* A run on a state whose IDR already agrees with the resolution notifies
   nobody. *)
Lemma irq_count_run_log_stable (s : STM32GPIOState) (i : Z) :
  idr_consistent s -> irq_count i (run_log s) = 0%nat.
Proof.
  intros Hc. unfold run_log.
  assert (H : forall n k, 0 <= k -> k + Z.of_nat n <= Z.max 0 (ngpio s) ->
              irq_count i (flat_map (pin_log s) (pins n k)) = 0%nat).
  { induction n as [|n IH]; intros k Hk Hn; cbn [pins flat_map].
    - reflexivity.
    - rewrite irq_count_app, IH by lia.
      destruct (irq_count_pin_log s i k) as (_ & _ & H3).
      rewrite H3; [reflexivity|]. apply Hc. lia. }
  apply H; lia.
Qed.

(** ** The scenarios of the specification, run on the model *)

(* Address-map scenario: MODER := 1 makes pin 0 an output, BSRR := 1 sets
   it; ODR and IDR then read 1 and pin 0 was notified once, with level 1. *)
Example address_map_scenario :
  (stm32_gpio_write STM32_GPIO_REG_MODER 1 ;;
   stm32_gpio_write STM32_GPIO_REG_BSRR 1 ;;
   o <- stm32_gpio_read STM32_GPIO_REG_ODR ;;
   i <- stm32_gpio_read STM32_GPIO_REG_IDR ;;
   ret (o, i)) (fresh 2 16)
  = Done (1, 1)
         (mkState 1 0 0 0 1 1 0 0 0 0 0 2 16)
         [Trace_write STM32_GPIO_REG_MODER 1;
          Trace_write STM32_GPIO_REG_BSRR 1;
          Set_irq 0 true;
          Trace_read STM32_GPIO_REG_ODR 1;
          Trace_read STM32_GPIO_REG_IDR 1].
Proof. vm_compute. reflexivity. Qed.

(* External dominance: an output pin with ODR bit 1 driven low from
   outside reads low, and the short circuit is reported. *)
Example external_dominance_scenario :
  (stm32_gpio_write STM32_GPIO_REG_MODER 1 ;;
   stm32_gpio_write STM32_GPIO_REG_ODR 1 ;;
   stm32_gpio_set 0 0 ;;
   stm32_gpio_read STM32_GPIO_REG_IDR) (fresh 2 16)
  = Done 0
         (mkState 1 0 0 0 0 1 0 0 0 0 1 2 16)
         [Trace_write STM32_GPIO_REG_MODER 1;
          Trace_write STM32_GPIO_REG_ODR 1;
          Set_irq 0 true;
          Trace_set 0 0;
          Guest_error_short 0;
          Set_irq 0 false;
          Trace_read STM32_GPIO_REG_IDR 0].
Proof. vm_compute. reflexivity. Qed.

(* Releasing the line (a negative value) clears the mask bit and keeps the
   stale drive bit. *)
Example release_scenario :
  (stm32_gpio_set 3 1 ;; stm32_gpio_set 3 (-1)) (fresh 2 16)
  = Done tt (mkState 0 0 0 0 0 0 0 0 0 8 0 2 16)
         [Trace_set 3 1; Trace_set 3 (-1)].
Proof. vm_compute. reflexivity. Qed.

(* A bank configured beyond the ceiling of 16 pins trips the range
   assertion of the bit-field helpers on its first engine run. *)
Example seventeen_pins_abort :
  stm32_gpio_write STM32_GPIO_REG_MODER 0 (fresh 2 17) = Abort Assert_bitfield.
Proof. vm_compute. reflexivity. Qed.

(** * The specification, property by property *)

(** C1. For every pin [i < ngpio], one run of the resolution engine sets
    IDR bit [i] to the external drive bit [in[i]] if [in_mask[i]] is set,
    else to the output-data bit [ODR[i]] if the pin's MODER field equals
    OUTPUT, else to 1 exactly when the pin's PUPDR field equals PULL_UP
    (NONE and PULL_DOWN resolve to 0); external drive wins over the output
    register even on an OUTPUT pin. *)
Theorem update_state_resolves (s : STM32GPIOState) :
  ngpio s <= STM32_GPIO_NPINS ->
  exists s' log,
    update_state s = Done tt s' log /\
    forall i, 0 <= i < ngpio s ->
      Z.testbit (idr s') i =
        (if Z.testbit (in_mask s) i then Z.testbit (in_ s) i
         else if field2 (moder s) i =? STM32_GPIO_MODE_OUTPUT
              then Z.testbit (odr s) i
              else field2 (pupdr s) i =? STM32_GPIO_PULL_UP) /\
      (Z.testbit (in_mask s) i = true ->
       field2 (moder s) i = STM32_GPIO_MODE_OUTPUT ->
       Z.testbit (idr s') i = Z.testbit (in_ s) i) /\
      (Z.testbit (in_mask s) i = false ->
       field2 (moder s) i <> STM32_GPIO_MODE_OUTPUT ->
       field2 (pupdr s) i = STM32_GPIO_PULL_NONE \/
       field2 (pupdr s) i = STM32_GPIO_PULL_DOWN ->
       Z.testbit (idr s') i = false).
Proof.
  intros Hn. destruct (update_state_spec s Hn) as (v & Hrun & _ & Hres & _).
  exists (set_idr v s), (run_log s). split; [exact Hrun|].
  intros i Hi. cbn [set_idr idr]. rewrite (Hres i Hi).
  unfold resolved, spec_resolve. split; [reflexivity|split].
  - intros Hm _. now rewrite Hm.
  - intros Hm Hmode Hpull. rewrite Hm.
    apply Z.eqb_neq in Hmode. rewrite Hmode.
    destruct Hpull as [-> | ->]; reflexivity.
Qed.

Lemma update_state_resolves_witness :
  ngpio example_bank <= STM32_GPIO_NPINS /\
  exists s' log,
    update_state example_bank = Done tt s' log /\
    Z.testbit (idr s') 0 = true /\ Z.testbit (idr s') 2 = false.
Proof.
  assert (Hn : ngpio example_bank <= STM32_GPIO_NPINS)
    by (vm_compute; discriminate).
  split; [exact Hn|].
  destruct (update_state_resolves example_bank Hn) as (s' & log & Hrun & Hres).
  exists s', log. split; [exact Hrun|]. split.
  - rewrite (proj1 (Hres 0 ltac:(vm_compute; split; congruence))). reflexivity.
  - rewrite (proj1 (Hres 2 ltac:(vm_compute; split; congruence))). reflexivity.
Defined.

(** C2. After every register write, whatever the offset (the read-only
    IDR offset and the undefined offsets included), and after every
    [set_external] call that returns, IDR bit [i] equals the resolution
    function applied to the current MODER, PUPDR, ODR, in and in_mask, for
    every pin [i < ngpio]; a write to the IDR offset leaves exactly the
    state a run of the engine alone leaves. *)
Theorem idr_consistent_after_access (s : STM32GPIOState) :
  ngpio s <= STM32_GPIO_NPINS ->
  (forall offset value, exists s' log,
      stm32_gpio_write offset value s = Done tt s' log /\ idr_consistent s') /\
  (forall line value s' log,
      stm32_gpio_set line value s = Done tt s' log -> idr_consistent s') /\
  (forall line value, 0 <= line < STM32_GPIO_NPINS -> exists s' log,
      stm32_gpio_set line value s = Done tt s' log) /\
  (forall value, exists s' log log',
      stm32_gpio_write STM32_GPIO_REG_IDR value s = Done tt s' log /\
      update_state s = Done tt s' log').
Proof.
  intros Hn. split; [|split; [|split]].
  - intros offset value.
    destruct (stm32_gpio_write_run offset value s Hn)
      as (s1 & v & _ & Hrun & _ & Hc & _).
    eauto.
  - intros line value s' log Hrun.
    destruct (Z_le_gt_dec 0 line) as [H0|H0];
      [destruct (Z_lt_le_dec line STM32_GPIO_NPINS) as [H1|H1]|].
    + destruct (stm32_gpio_set_run line value s) as (v & Hrun' & Hc); auto.
      rewrite Hrun' in Hrun. injection Hrun as <- _. exact Hc.
    + rewrite stm32_gpio_set_abort in Hrun by lia. discriminate.
    + rewrite stm32_gpio_set_abort in Hrun by lia. discriminate.
  - intros line value Hl.
    destruct (stm32_gpio_set_run line value s) as (v & Hrun' & Hc); eauto.
  - intros value.
    destruct (update_state_spec s Hn) as (v & Hrun & _).
    exists (set_idr v s), (Trace_write STM32_GPIO_REG_IDR value :: run_log s),
           (run_log s).
    split; [|exact Hrun].
    rewrite stm32_gpio_write_idr, Hrun. reflexivity.
Qed.

Lemma idr_consistent_after_access_witness :
  ngpio example_bank <= STM32_GPIO_NPINS /\
  exists s' log,
    stm32_gpio_write STM32_GPIO_REG_ODR 0 example_bank = Done tt s' log /\
    idr_consistent s'.
Proof.
  assert (Hn : ngpio example_bank <= STM32_GPIO_NPINS)
    by (vm_compute; discriminate).
  split; [exact Hn|].
  exact (proj1 (idr_consistent_after_access example_bank Hn)
               STM32_GPIO_REG_ODR 0).
Defined.

Lemma testbit_not64 (x j : Z) :
  0 <= j -> Z.testbit (not64 x) j = negb (Z.testbit x j) && (j <? 64).
Proof.
  intros Hj. unfold not64. change 0xFFFFFFFFFFFFFFFF with (Z.ones 64).
  now rewrite Z.land_spec, Z.lnot_spec, Z.testbit_ones_nonneg by lia.
Qed.

Lemma testbit_low16 (x j : Z) :
  0 <= j -> Z.testbit (Z.land x 0xFFFF) j = Z.testbit x j && (j <? 16).
Proof.
  intros Hj. change 0xFFFF with (Z.ones 16).
  now rewrite Z.land_spec, Z.testbit_ones_nonneg by lia.
Qed.

Lemma bsrr_odr_spec (odr v : Z) :
  u32 odr -> u32 v -> bsrr_odr odr v = spec_bsrr odr v.
Proof.
  intros Ho Hv. apply Z.bits_inj'. intros j Hj.
  unfold bsrr_odr, spec_bsrr.
  rewrite testbit_to_u32, !Z.lor_spec, testbit_to_u32, Z.land_spec,
    testbit_not64, !testbit_low16, Z.ldiff_spec, !Z.shiftr_spec by lia.
  destruct (Z.ltb_spec j 16) as [H16|H16].
  - replace (j <? 32) with true by (symmetry; apply Z.ltb_lt; lia).
    replace (j <? 64) with true by (symmetry; apply Z.ltb_lt; lia).
    now rewrite !andb_true_r.
  - rewrite !andb_false_r, !orb_false_r. cbn [negb].
    rewrite (u32_testbit_high v (j + 16)) by (assumption || lia).
    cbn [negb]. rewrite !andb_true_r.
    destruct (Z.ltb_spec j 32) as [H32|H32].
    + replace (j <? 64) with true by (symmetry; apply Z.ltb_lt; lia).
      now rewrite !andb_true_r.
    + rewrite (u32_testbit_high odr j) by (assumption || lia). reflexivity.
Qed.

Lemma stm32_gpio_write_bsrr (value : Z) (s : STM32GPIOState) :
  stm32_gpio_write STM32_GPIO_REG_BSRR value s =
  match update_state (set_odr (bsrr_odr (odr s) value) s) with
  | Done _ s' log => Done tt s' (Trace_write STM32_GPIO_REG_BSRR value :: log)
  | Abort f => Abort f
  end.
Proof.
  unfold stm32_gpio_write, bind, emit.
  change (write_register STM32_GPIO_REG_BSRR value s)
    with (Done tt (set_odr (bsrr_odr (odr s) value) s) ([] ++ [])).
  cbv beta iota.
  destruct (update_state _) as [[] s' log|f]; reflexivity.
Qed.

Lemma stm32_gpio_write_odr (value : Z) (s : STM32GPIOState) :
  stm32_gpio_write STM32_GPIO_REG_ODR value s =
  match update_state (set_odr (to_u32 value) s) with
  | Done _ s' log => Done tt s' (Trace_write STM32_GPIO_REG_ODR value :: log)
  | Abort f => Abort f
  end.
Proof.
  unfold stm32_gpio_write, bind, emit.
  change (write_register STM32_GPIO_REG_ODR value s)
    with (Done tt (set_odr (to_u32 value) s) []).
  cbv beta iota.
  destruct (update_state _) as [[] s' log|f]; reflexivity.
Qed.

(** C3. For every prior ODR value and every 32-bit value [v] written to
    the BSRR offset, the new ODR is the old one with the bits named by the
    high 16 bits of [v] cleared and then the low 16 bits of [v] OR-ed in;
    in particular a pin whose set bit and reset bit are both 1 in the same
    write ends up with its ODR bit at 1. *)
Theorem bsrr_write_set_over_reset (s : STM32GPIOState) (v : Z) :
  ngpio s <= STM32_GPIO_NPINS -> u32 (odr s) -> u32 v ->
  exists s' log,
    stm32_gpio_write STM32_GPIO_REG_BSRR v s = Done tt s' log /\
    odr s' = spec_bsrr (odr s) v /\
    (forall i, 0 <= i < 16 ->
       Z.testbit v i = true -> Z.testbit v (i + 16) = true ->
       Z.testbit (odr s') i = true).
Proof.
  intros Hn Ho Hv.
  destruct (update_state_spec (set_odr (bsrr_odr (odr s) v) s) Hn)
    as (w & Hrun & _).
  rewrite stm32_gpio_write_bsrr, Hrun.
  do 2 eexists. split; [reflexivity|].
  cbn [set_idr set_odr odr]. rewrite bsrr_odr_spec by assumption.
  split; [reflexivity|].
  intros i Hi Hset _. unfold spec_bsrr.
  rewrite Z.lor_spec, testbit_low16, Hset by lia.
  replace (i <? 16) with true by (symmetry; apply Z.ltb_lt; lia).
  apply orb_true_r.
Qed.

Lemma bsrr_write_set_over_reset_witness :
  ngpio example_bank <= STM32_GPIO_NPINS /\ u32 (odr example_bank) /\
  u32 0x00010001 /\
  exists s' log,
    stm32_gpio_write STM32_GPIO_REG_BSRR 0x00010001 example_bank
      = Done tt s' log /\
    Z.testbit (odr s') 0 = true.
Proof.
  assert (Hn : ngpio example_bank <= STM32_GPIO_NPINS)
    by (vm_compute; discriminate).
  assert (Ho : u32 (odr example_bank)) by (vm_compute; split; congruence).
  assert (Hv : u32 0x00010001) by (vm_compute; split; congruence).
  split; [exact Hn|split; [exact Ho|split; [exact Hv|]]].
  destruct (bsrr_write_set_over_reset example_bank 0x00010001 Hn Ho Hv)
    as (s' & log & Hrun & _ & Hbit).
  exists s', log. split; [exact Hrun|].
  apply Hbit; [lia|reflexivity|reflexivity].
Defined.

Lemma port_a_after_reset_reached :
  stm32_gpio_reset (fresh STM32_GPIO_PORT_A 16) = Done tt port_a_after_reset [].
Proof. reflexivity. Qed.

(** C4, as stated, fails on a write: on a port-A bank fresh from reset a
    write to the undefined offset 0x100 runs the resolution engine, which
    raises IDR from 0 to 0xA000 (pins 13 and 15 are pulled up). *)
Lemma undefined_write_moves_idr :
  defined_offset 0x100 = false /\
  stm32_gpio_write 0x100 0 port_a_after_reset
    = Done tt (set_idr 0xA000 port_a_after_reset)
           [Trace_write 0x100 0; Guest_error_bad_write 0x100] /\
  idr (set_idr 0xA000 port_a_after_reset) <> idr port_a_after_reset.
Proof.
  split; [reflexivity|]. split; [vm_compute; reflexivity|].
  vm_compute. discriminate.
Qed.

(** C4, amended. For every offset outside the ten defined register
    offsets, a read returns 0, emits a malformed-access diagnostic and
    leaves every state field unchanged; a write to such an offset emits a
    malformed-access diagnostic and leaves every field other than IDR
    unchanged, while IDR is resolved again by the engine run that follows
    every write, so that it too is unchanged when it already agreed with
    the other registers. *)
Theorem undefined_offset_access (offset value : Z) (s : STM32GPIOState) :
  defined_offset offset = false -> ngpio s <= STM32_GPIO_NPINS ->
  stm32_gpio_read offset s
    = Done 0 s [Guest_error_bad_read offset; Trace_read offset 0] /\
  exists v,
    stm32_gpio_write offset value s
      = Done tt (set_idr v s)
             (Trace_write offset value :: Guest_error_bad_write offset
                :: run_log s) /\
    idr_consistent (set_idr v s) /\
    (idr_consistent s -> u32 (idr s) -> set_idr v s = s).
Proof.
  intros Hoff Hn. split; [now apply stm32_gpio_read_undefined|].
  destruct (write_register_run offset value s)
    as (s1 & Hreg & _ & _ & _ & _ & _ & Hsame).
  rewrite Hoff in Hreg. rewrite (Hsame Hoff) in Hreg. clear s1 Hsame.
  destruct (update_state_spec s Hn) as (v & Hrun & Hc & _ & _ & Hst).
  exists v. split; [|split; [exact Hc|]].
  - unfold stm32_gpio_write, bind, emit. rewrite Hreg, Hrun. reflexivity.
  - intros Hcs Hu. rewrite Hst by auto. apply set_idr_same.
Qed.

Lemma undefined_offset_access_witness :
  defined_offset 0x100 = false /\
  ngpio port_a_after_reset <= STM32_GPIO_NPINS /\
  stm32_gpio_read 0x100 port_a_after_reset
    = Done 0 port_a_after_reset
           [Guest_error_bad_read 0x100; Trace_read 0x100 0].
Proof.
  assert (Hoff : defined_offset 0x100 = false) by reflexivity.
  assert (Hn : ngpio port_a_after_reset <= STM32_GPIO_NPINS)
    by (vm_compute; discriminate).
  split; [exact Hoff|split; [exact Hn|]].
  exact (proj1 (undefined_offset_access 0x100 0 port_a_after_reset Hoff Hn)).
Defined.

Lemma port_a_pin0_output_reached :
  stm32_gpio_write STM32_GPIO_REG_MODER 1 port_a_after_reset
  = Done tt port_a_pin0_output [Trace_write STM32_GPIO_REG_MODER 1].
Proof. vm_compute. reflexivity. Qed.

(** C5, on the code. After [reset] on a port-A bank, reading PUPDR
    returns 0x64000000 and reading ODR and IDR returns 0, and reset sends
    nothing out; but reset never assigns MODER, so reading it returns the
    value it had before, not 0. *)
Theorem reset_port_a_reads (s : STM32GPIOState) :
  port s = STM32_GPIO_PORT_A ->
  exists s',
    stm32_gpio_reset s = Done tt s' [] /\
    stm32_gpio_read STM32_GPIO_REG_MODER s'
      = Done (moder s) s' [Trace_read STM32_GPIO_REG_MODER (moder s)] /\
    stm32_gpio_read STM32_GPIO_REG_PUPDR s'
      = Done 0x64000000 s' [Trace_read STM32_GPIO_REG_PUPDR 0x64000000] /\
    stm32_gpio_read STM32_GPIO_REG_ODR s'
      = Done 0 s' [Trace_read STM32_GPIO_REG_ODR 0] /\
    stm32_gpio_read STM32_GPIO_REG_IDR s'
      = Done 0 s' [Trace_read STM32_GPIO_REG_IDR 0].
Proof.
  intros Hp. rewrite stm32_gpio_reset_run, Hp.
  eexists. split; [reflexivity|]. repeat split.
Qed.

Lemma reset_port_a_reads_witness :
  port port_a_pin0_output = STM32_GPIO_PORT_A /\
  exists s',
    stm32_gpio_reset port_a_pin0_output = Done tt s' [] /\
    stm32_gpio_read STM32_GPIO_REG_MODER s'
      = Done 1 s' [Trace_read STM32_GPIO_REG_MODER 1].
Proof.
  split; [reflexivity|].
  destruct (reset_port_a_reads port_a_pin0_output eq_refl)
    as (s' & Hreset & Hmoder & _).
  exists s'. split; [exact Hreset|exact Hmoder].
Defined.

(** C6, as stated, fails: on a bank configured with 8 pins,
    [set_external] on pin 10, outside 0..7, does not assert; it records
    the drive in bit 10 of the drive vectors. *)
Lemma set_external_beyond_ngpio :
  ngpio eight_pin_bank = 8 /\
  stm32_gpio_set 10 1 eight_pin_bank
    = Done tt (set_in 0x400 (set_in_mask 0x400 eight_pin_bank))
           [Trace_set 10 1].
Proof. split; [reflexivity|vm_compute; reflexivity]. Qed.

(** C6, amended. [set_external(pin, value)] fails on its assertion exactly
    when [pin] is outside 0..15, the fixed line count STM32_GPIO_NPINS,
    whatever the configured pin count; on a bank of at most 16 pins it
    returns for every pin inside 0..15, and the drive-mask bit it writes
    is the bit of that very pin, all other bits being kept. *)
Theorem set_external_assertion (line value : Z) (s : STM32GPIOState) :
  (stm32_gpio_set line value s = Abort Assert_line
   <-> ~ (0 <= line < STM32_GPIO_NPINS)) /\
  (ngpio s <= STM32_GPIO_NPINS -> 0 <= line < STM32_GPIO_NPINS ->
   exists s' log,
     stm32_gpio_set line value s = Done tt s' log /\
     forall j, 0 <= j < 32 ->
       Z.testbit (in_mask s') j =
       if j =? line then 0 <=? value else Z.testbit (in_mask s) j).
Proof.
  split.
  - split.
    + intros Hab Hl.
      destruct (Z_le_gt_dec (ngpio s) STM32_GPIO_NPINS) as [Hn|Hn].
      * destruct (stm32_gpio_set_run line value s Hl Hn) as (v & Hrun & _).
        rewrite Hrun in Hab. discriminate.
      * rewrite stm32_gpio_set_abort_bitfield in Hab by (assumption || lia).
        discriminate.
    + apply stm32_gpio_set_abort.
  - intros Hn Hl.
    destruct (stm32_gpio_set_run line value s Hl Hn) as (v & Hrun & _).
    do 2 eexists. split; [exact Hrun|].
    intros j Hj.
    assert (Hm : in_mask (set_idr v (drive line value s))
                 = set_bit32 (in_mask s) line (0 <=? value))
      by (unfold drive; destruct (0 <=? value); reflexivity).
    rewrite Hm. unfold STM32_GPIO_NPINS in Hl.
    rewrite testbit_set_bit32 by lia.
    replace (j <? 32) with true by (symmetry; apply Z.ltb_lt; lia).
    now rewrite andb_true_r.
Qed.

Lemma set_external_assertion_witness :
  ngpio eight_pin_bank <= STM32_GPIO_NPINS /\ 0 <= 10 < STM32_GPIO_NPINS /\
  exists s' log,
    stm32_gpio_set 10 1 eight_pin_bank = Done tt s' log /\
    Z.testbit (in_mask s') 10 = true.
Proof.
  assert (Hn : ngpio eight_pin_bank <= STM32_GPIO_NPINS)
    by (vm_compute; discriminate).
  assert (Hl : 0 <= 10 < STM32_GPIO_NPINS) by (vm_compute; split; congruence).
  split; [exact Hn|split; [exact Hl|]].
  destruct (proj2 (set_external_assertion 10 1 eight_pin_bank) Hn Hl)
    as (s' & log & Hrun & Hbits).
  exists s', log. split; [exact Hrun|].
  rewrite Hbits by lia. reflexivity.
Defined.

(** C7. For every state and every value [v], writing [v] to the ODR
    offset twice in a row produces at most one output-changed notification
    per pin, possibly on the first write and never on the second, and the
    second write leaves IDR (indeed the whole state) as the first write
    left it. *)
Theorem odr_write_twice (s : STM32GPIOState) (v : Z) :
  ngpio s <= STM32_GPIO_NPINS ->
  exists s1 log1 log2,
    stm32_gpio_write STM32_GPIO_REG_ODR v s = Done tt s1 log1 /\
    stm32_gpio_write STM32_GPIO_REG_ODR v s1 = Done tt s1 log2 /\
    (forall i, (irq_count i log1 <= 1)%nat) /\
    (forall i, irq_count i log2 = 0%nat).
Proof.
  intros Hn.
  set (sa := set_odr (to_u32 v) s).
  destruct (update_state_spec sa Hn) as (v1 & Hrun1 & Hc1 & _ & Hu1 & _).
  set (s1 := set_idr v1 sa) in *.
  destruct (update_state_spec s1 Hn) as (v2 & Hrun2 & _ & _ & _ & Hst2).
  rewrite (Hst2 Hc1 Hu1), set_idr_same in Hrun2.
  exists s1, (Trace_write STM32_GPIO_REG_ODR v :: run_log sa),
         (Trace_write STM32_GPIO_REG_ODR v :: run_log s1).
  split; [|split; [|split]].
  - rewrite stm32_gpio_write_odr. fold sa. now rewrite Hrun1.
  - rewrite stm32_gpio_write_odr.
    change (set_odr (to_u32 v) s1) with s1. now rewrite Hrun2.
  - intros i. apply (irq_count_run_log sa i).
  - intros i. apply (irq_count_run_log_stable s1 i Hc1).
Qed.

Lemma odr_write_twice_witness :
  ngpio port_a_pin0_output <= STM32_GPIO_NPINS /\
  exists s1 log1 log2,
    stm32_gpio_write STM32_GPIO_REG_ODR 1 port_a_pin0_output
      = Done tt s1 log1 /\
    stm32_gpio_write STM32_GPIO_REG_ODR 1 s1 = Done tt s1 log2 /\
    (irq_count 0 log1 <= 1)%nat /\ irq_count 0 log2 = 0%nat.
Proof.
  assert (Hn : ngpio port_a_pin0_output <= STM32_GPIO_NPINS)
    by (vm_compute; discriminate).
  split; [exact Hn|].
  destruct (odr_write_twice port_a_pin0_output 1 Hn)
    as (s1 & log1 & log2 & H1 & H2 & Hc1 & Hc2).
  exists s1, log1, log2. auto.
Defined.

(** C8. For every starting state and every pair of values [v1], [v2],
    writing [v1] to the IDR offset and writing [v2] to it end in the same
    state with the same notifications and diagnostics: the value written
    to the read-only IDR offset reaches no register, not IDR either, and no
    notification (only the trace point of the write echoes it). *)
Theorem idr_write_ignores_value (s : STM32GPIOState) (v1 v2 : Z) :
  observable (stm32_gpio_write STM32_GPIO_REG_IDR v1 s)
    = observable (stm32_gpio_write STM32_GPIO_REG_IDR v2 s) /\
  (ngpio s <= STM32_GPIO_NPINS ->
   exists s' log,
     stm32_gpio_write STM32_GPIO_REG_IDR v1 s
       = Done tt s' (Trace_write STM32_GPIO_REG_IDR v1 :: log) /\
     stm32_gpio_write STM32_GPIO_REG_IDR v2 s
       = Done tt s' (Trace_write STM32_GPIO_REG_IDR v2 :: log) /\
     s' = set_idr (idr s') s).
Proof.
  rewrite !stm32_gpio_write_idr. split.
  - destruct (update_state s) as [[] s' log|f]; reflexivity.
  - intros Hn. destruct (update_state_spec s Hn) as (v & Hrun & _).
    rewrite Hrun. do 2 eexists. repeat split.
Qed.

Lemma idr_write_ignores_value_witness :
  ngpio example_bank <= STM32_GPIO_NPINS /\
  exists s' log,
    stm32_gpio_write STM32_GPIO_REG_IDR 0 example_bank
      = Done tt s' (Trace_write STM32_GPIO_REG_IDR 0 :: log) /\
    stm32_gpio_write STM32_GPIO_REG_IDR 0xFFFFFFFF example_bank
      = Done tt s' (Trace_write STM32_GPIO_REG_IDR 0xFFFFFFFF :: log).
Proof.
  assert (Hn : ngpio example_bank <= STM32_GPIO_NPINS)
    by (vm_compute; discriminate).
  split; [exact Hn|].
  destruct (proj2 (idr_write_ignores_value example_bank 0 0xFFFFFFFF) Hn)
    as (s' & log & H1 & H2 & _).
  exists s', log. split; [exact H1|exact H2].
Defined.

(** C9. A run of the resolution engine mutates only IDR: whenever it
    returns, MODER, OTYPER, OSPEEDR, PUPDR, ODR, LCKR, AFRL, AFRH, in and
    in_mask (and the configuration) are as they were before the run; and
    it does return on every bank of at most 16 pins. *)
Theorem update_state_frame (s : STM32GPIOState) :
  (forall s' log, update_state s = Done tt s' log ->
     moder s' = moder s /\ otyper s' = otyper s /\ ospeedr s' = ospeedr s /\
     pupdr s' = pupdr s /\ odr s' = odr s /\ lckr s' = lckr s /\
     aflr s' = aflr s /\ afhr s' = afhr s /\
     in_ s' = in_ s /\ in_mask s' = in_mask s /\
     port s' = port s /\ ngpio s' = ngpio s) /\
  (ngpio s <= STM32_GPIO_NPINS ->
   exists s' log, update_state s = Done tt s' log).
Proof.
  split.
  - intros s' log Hrun.
    destruct (Z_le_gt_dec (ngpio s) STM32_GPIO_NPINS) as [Hn|Hn].
    + destruct (update_state_spec s Hn) as (v & Hrun' & _).
      rewrite Hrun' in Hrun. injection Hrun as <- _. repeat split.
    + rewrite update_state_abort in Hrun by lia. discriminate.
  - intros Hn. destruct (update_state_spec s Hn) as (v & Hrun & _). eauto.
Qed.

Lemma update_state_frame_witness :
  ngpio port_a_after_reset <= STM32_GPIO_NPINS /\
  exists s' log,
    update_state port_a_after_reset = Done tt s' log /\
    pupdr s' = 0x64000000.
Proof.
  assert (Hn : ngpio port_a_after_reset <= STM32_GPIO_NPINS)
    by (vm_compute; discriminate).
  split; [exact Hn|].
  destruct (proj2 (update_state_frame port_a_after_reset) Hn)
    as (s' & log & Hrun).
  exists s', log. split; [exact Hrun|].
  now destruct (proj1 (update_state_frame port_a_after_reset) s' log Hrun)
    as (_ & _ & _ & -> & _).
Defined.

Lemma field2_range (reg i : Z) : 0 <= field2 reg i <= 3.
Proof.
  unfold field2. change (Z.land (Z.shiftr reg (i * 2)) 3)
    with (Z.land (Z.shiftr reg (i * 2)) (Z.ones 2)).
  rewrite Z.land_ones by lia. change (2 ^ 2) with 4.
  pose proof (Z.mod_pos_bound (Z.shiftr reg (i * 2)) 4 eq_refl). lia.
Qed.

(** C10. Resolution is total over all 2-bit field values: the engine
    returns whatever the fields hold, and for every undriven pin whose
    MODER field is anything but OUTPUT (ALTERNATE_FUNCTION and ANALOG
    included) the resolved level is 1 exactly when the PUPDR field is 1
    (PULL_UP); the reserved PUPDR value 3 resolves to 0, like NONE and
    PULL_DOWN. *)
Theorem floating_pin_resolution (s : STM32GPIOState) :
  ngpio s <= STM32_GPIO_NPINS ->
  exists s' log,
    update_state s = Done tt s' log /\
    forall i, 0 <= i < ngpio s ->
      Z.testbit (in_mask s) i = false ->
      field2 (moder s) i <> STM32_GPIO_MODE_OUTPUT ->
      (Z.testbit (idr s') i = true <-> field2 (pupdr s) i = STM32_GPIO_PULL_UP) /\
      (field2 (pupdr s) i = 3 -> Z.testbit (idr s') i = false).
Proof.
  intros Hn. destruct (update_state_spec s Hn) as (v & Hrun & _ & Hres & _).
  exists (set_idr v s), (run_log s). split; [exact Hrun|].
  intros i Hi Hm Hmode. cbn [set_idr idr]. rewrite (Hres i Hi).
  unfold resolved, spec_resolve. rewrite Hm.
  apply Z.eqb_neq in Hmode. rewrite Hmode. split.
  - apply Z.eqb_eq.
  - intros ->. reflexivity.
Qed.

Lemma floating_pin_resolution_witness :
  ngpio reserved_pull_bank <= STM32_GPIO_NPINS /\
  exists s' log,
    update_state reserved_pull_bank = Done tt s' log /\
    Z.testbit (idr s') 0 = false /\ Z.testbit (idr s') 1 = true.
Proof.
  assert (Hn : ngpio reserved_pull_bank <= STM32_GPIO_NPINS)
    by (vm_compute; discriminate).
  split; [exact Hn|].
  destruct (floating_pin_resolution reserved_pull_bank Hn)
    as (s' & log & Hrun & Hres).
  exists s', log. split; [exact Hrun|]. split.
  - apply (Hres 0); [vm_compute; split; congruence|reflexivity
                    |vm_compute; discriminate|reflexivity].
  - apply (Hres 1); [vm_compute; split; congruence|reflexivity
                    |vm_compute; discriminate|reflexivity].
Defined.

(** * Further properties of the device code *)

(** ** Supporting lemmas *)

Lemma stm32_gpio_write_unfold (offset value : Z) (s s1 : STM32GPIOState)
      (l1 : list event) :
  write_register offset value s = Done tt s1 l1 ->
  stm32_gpio_write offset value s =
  match update_state s1 with
  | Done _ s2 l2 => Done tt s2 (Trace_write offset value :: l1 ++ l2)
  | Abort f => Abort f
  end.
Proof.
  intros Hreg. unfold stm32_gpio_write, bind, emit. rewrite Hreg.
  destruct (update_state s1) as [[] s2 l2|f]; reflexivity.
Qed.

(* What the switch of stm32_gpio_write leaves alone. *)
Lemma write_register_fields (offset value : Z) (s : STM32GPIOState) :
  exists s1,
    write_register offset value s
      = Done tt s1 (if defined_offset offset then []
                    else [Guest_error_bad_write offset]) /\
    (offset <> STM32_GPIO_REG_MODER -> moder s1 = moder s) /\
    (offset <> STM32_GPIO_REG_OTYPER -> otyper s1 = otyper s) /\
    (offset <> STM32_GPIO_REG_OSPEEDR -> ospeedr s1 = ospeedr s) /\
    (offset <> STM32_GPIO_REG_PUPDR -> pupdr s1 = pupdr s) /\
    (offset <> STM32_GPIO_REG_ODR -> offset <> STM32_GPIO_REG_BSRR ->
     odr s1 = odr s) /\
    (offset <> STM32_GPIO_REG_LCKR -> lckr s1 = lckr s) /\
    (offset <> STM32_GPIO_REG_AFRL -> aflr s1 = aflr s) /\
    (offset <> STM32_GPIO_REG_AFRH -> afhr s1 = afhr s) /\
    idr s1 = idr s /\ in_ s1 = in_ s /\ in_mask s1 = in_mask s /\
    port s1 = port s /\ ngpio s1 = ngpio s.
Proof.
  unfold write_register, defined_offset. cbn [existsb].
  repeat match goal with
         | |- context [offset =? ?c] =>
             destruct (Z.eqb_spec offset c); cbn [orb]
         end;
    try (eexists; split; [reflexivity|];
         repeat split; intros; congruence || reflexivity).
Qed.

Lemma in_run_log (e : event) (s : STM32GPIOState) :
  In e (run_log s) <-> exists j, 0 <= j < ngpio s /\ In e (pin_log s j).
Proof.
  unfold run_log. rewrite in_flat_map. split.
  - intros (j & Hj & He). apply in_pins in Hj. exists j. split; [lia|exact He].
  - intros (j & Hj & He). exists j. split; [apply in_pins; lia|exact He].
Qed.

Lemma in_pin_log_short (s : STM32GPIOState) (i j : Z) :
  In (Guest_error_short i) (pin_log s j) <->
  i = j /\ field2 (moder s) j = STM32_GPIO_MODE_OUTPUT /\
  Z.testbit (in_mask s) j = true.
Proof.
  assert (HB : forall (c r : bool),
             ~ In (Guest_error_short i) (if c then [Set_irq j r] else []))
    by (intros [] r H; cbn [In] in H; intuition discriminate).
  assert (HA : forall c : bool,
             In (Guest_error_short i) (if c then [Guest_error_short j] else [])
             <-> c = true /\ i = j).
  { intros []; cbn [In]; split.
    - intros [H|[]]. injection H as ->. auto.
    - intros [_ ->]. auto.
    - intros [].
    - intros [H _]. discriminate H. }
  unfold pin_log. rewrite in_app_iff. split.
  - intros [H|H]; [apply HA in H|now apply HB in H].
    destruct H as [Hc ->]. apply andb_true_iff in Hc as [Hm Hk].
    apply Z.eqb_eq in Hm. auto.
  - intros (-> & Hm & Hk). left. apply HA. split; [|reflexivity].
    apply andb_true_iff. split; [now apply Z.eqb_eq|exact Hk].
Qed.

Lemma in_pin_log_irq (s : STM32GPIOState) (i j : Z) (b : bool) :
  In (Set_irq i b) (pin_log s j) <->
  i = j /\ field2 (moder s) j = STM32_GPIO_MODE_OUTPUT /\
  resolved s j = b /\ Z.testbit (idr s) j = negb b.
Proof.
  assert (HA : forall c : bool,
             ~ In (Set_irq i b) (if c then [Guest_error_short j] else []))
    by (intros [] H; cbn [In] in H; intuition discriminate).
  assert (HB : forall (c r : bool),
             In (Set_irq i b) (if c then [Set_irq j r] else [])
             <-> c = true /\ i = j /\ r = b).
  { intros [] r; cbn [In]; split.
    - intros [H|[]]. injection H as -> ->. auto.
    - intros (_ & -> & ->). auto.
    - intros [].
    - intros [H _]. discriminate H. }
  unfold pin_log. rewrite in_app_iff. split.
  - intros [H|H]; [now apply HA in H|apply HB in H].
    destruct H as (Hc & -> & Hr). apply andb_true_iff in Hc as [Hm Hk].
    apply Z.eqb_eq in Hm. repeat split; auto.
    rewrite Hr in Hk. destruct b, (Z.testbit (idr s) j); auto; discriminate Hk.
  - intros (-> & Hm & Hr & Hk). right. apply HB. repeat split; auto.
    apply andb_true_iff. split; [now apply Z.eqb_eq|].
    rewrite Hr, Hk. now destruct b.
Qed.

Lemma pin_log_engine_events (s : STM32GPIOState) (j : Z) (e : event) :
  In e (pin_log s j) -> is_engine_event e = true.
Proof.
  unfold pin_log. rewrite in_app_iff.
  intros [H|H];
    match type of H with
    | In _ (if ?c then _ else _) => destruct c
    end;
    cbn [In] in H; try contradiction;
    destruct H as [<-|[]]; reflexivity.
Qed.

Lemma update_state_done (s s' : STM32GPIOState) (log : list event) :
  update_state s = Done tt s' log ->
  ngpio s <= STM32_GPIO_NPINS /\ log = run_log s /\
  exists v, s' = set_idr v s /\
    (forall j, 0 <= j < 32 ->
       Z.testbit v j = if j <? ngpio s then resolved s j
                       else Z.testbit (idr s) j) /\
    (ngpio s <= 0 -> v = idr s) /\ (0 < ngpio s -> u32 v).
Proof.
  intros Hrun.
  destruct (Z_le_gt_dec (ngpio s) STM32_GPIO_NPINS) as [Hn|Hn].
  - destruct (update_state_run s Hn) as (v & Hrun' & Hbits & Hz & Hp).
    rewrite Hrun' in Hrun. injection Hrun as <- <-.
    split; [exact Hn|]. split; [reflexivity|]. exists v. auto.
  - rewrite update_state_abort in Hrun by lia. discriminate.
Qed.

Lemma run_log_engine_events (s : STM32GPIOState) (e : event) :
  In e (run_log s) -> is_engine_event e = true.
Proof.
  intros H. apply in_run_log in H as (j & _ & H).
  now apply pin_log_engine_events in H.
Qed.

(** ** The register interface *)

(** X1. A read never changes the device state, whatever the offset; it
    reports a bad offset exactly when the offset is none of the ten
    registers, in which case it returns 0, and the write-only BSRR reads
    as 0. *)
Theorem stm32_gpio_read_pure (offset : Z) (s : STM32GPIOState) :
  exists r,
    stm32_gpio_read offset s
      = Done r s ((if defined_offset offset then []
                   else [Guest_error_bad_read offset])
                  ++ [Trace_read offset r]) /\
    (defined_offset offset = false -> r = 0) /\
    (offset = STM32_GPIO_REG_BSRR -> r = 0).
Proof.
  unfold stm32_gpio_read, bind, get, defined_offset. cbn [existsb].
  cbv beta iota.
  repeat match goal with
         | |- context [offset =? ?c] =>
             destruct (Z.eqb_spec offset c); cbn [orb]
         end;
    (eexists; split; [reflexivity|]; split; intros H;
     subst; discriminate || reflexivity || contradiction).
Qed.

Lemma stm32_gpio_read_pure_witness :
  defined_offset 0x3FC = false /\
  exists r,
    stm32_gpio_read 0x3FC busy_bank
      = Done r busy_bank [Guest_error_bad_read 0x3FC; Trace_read 0x3FC r] /\
    r = 0.
Proof.
  assert (Hoff : defined_offset 0x3FC = false) by reflexivity.
  split; [exact Hoff|].
  destruct (stm32_gpio_read_pure 0x3FC busy_bank) as (r & Hr & H0 & _).
  exists r. split; [exact Hr|exact (H0 Hoff)].
Defined.

Lemma write_register_read (offset value : Z) (s : STM32GPIOState) :
  storage_offset offset = true ->
  exists s1,
    write_register offset value s = Done tt s1 [] /\
    ngpio s1 = ngpio s /\
    forall w, stm32_gpio_read offset (set_idr w s1)
              = Done (to_u32 value) (set_idr w s1)
                     [Trace_read offset (to_u32 value)].
Proof.
  unfold storage_offset. cbn [existsb]. intros H.
  repeat (apply orb_true_iff in H; destruct H as [H|H]);
    try discriminate H;
    apply Z.eqb_eq in H; subst offset;
    (eexists; split; [reflexivity|split; [reflexivity|intros w; reflexivity]]).
Qed.

(** X2. Write then read: for each of the eight storage registers (MODER,
    OTYPER, OSPEEDR, PUPDR, ODR, LCKR, AFRL, AFRH) a write of [value]
    followed by a read of the same offset returns [value] truncated to 32
    bits, whatever the other registers hold; the lock register in
    particular protects nothing. *)
Theorem write_then_read (offset value : Z) (s : STM32GPIOState) :
  storage_offset offset = true -> ngpio s <= STM32_GPIO_NPINS ->
  exists s' log,
    stm32_gpio_write offset value s = Done tt s' log /\
    stm32_gpio_read offset s'
      = Done (to_u32 value) s' [Trace_read offset (to_u32 value)].
Proof.
  intros Hoff Hn.
  destruct (write_register_read offset value s Hoff) as (s1 & Hreg & Hng & Hrd).
  destruct (update_state_run s1) as (v & Hrun & _); [now rewrite Hng|].
  rewrite (stm32_gpio_write_unfold _ _ _ _ _ Hreg), Hrun.
  do 2 eexists. split; [reflexivity|apply Hrd].
Qed.

Lemma write_then_read_witness :
  storage_offset STM32_GPIO_REG_LCKR = true /\
  ngpio busy_bank <= STM32_GPIO_NPINS /\
  exists s' log,
    stm32_gpio_write STM32_GPIO_REG_LCKR 0x1FFFFFFFF busy_bank
      = Done tt s' log /\
    stm32_gpio_read STM32_GPIO_REG_LCKR s'
      = Done 0xFFFFFFFF s' [Trace_read STM32_GPIO_REG_LCKR 0xFFFFFFFF].
Proof.
  assert (Hoff : storage_offset STM32_GPIO_REG_LCKR = true) by reflexivity.
  assert (Hn : ngpio busy_bank <= STM32_GPIO_NPINS)
    by (vm_compute; discriminate).
  split; [exact Hoff|split; [exact Hn|]].
  exact (write_then_read STM32_GPIO_REG_LCKR 0x1FFFFFFFF busy_bank Hoff Hn).
Defined.

(** X3. A register write changes at most the register it addresses (ODR
    for both the ODR and the BSRR offset) and IDR: every other register,
    both external drive vectors and the configuration are as before,
    whatever the offset and the value. *)
Theorem stm32_gpio_write_frame (offset value : Z) (s s' : STM32GPIOState)
        (log : list event) :
  stm32_gpio_write offset value s = Done tt s' log ->
  (offset <> STM32_GPIO_REG_MODER -> moder s' = moder s) /\
  (offset <> STM32_GPIO_REG_OTYPER -> otyper s' = otyper s) /\
  (offset <> STM32_GPIO_REG_OSPEEDR -> ospeedr s' = ospeedr s) /\
  (offset <> STM32_GPIO_REG_PUPDR -> pupdr s' = pupdr s) /\
  (offset <> STM32_GPIO_REG_ODR -> offset <> STM32_GPIO_REG_BSRR ->
   odr s' = odr s) /\
  (offset <> STM32_GPIO_REG_LCKR -> lckr s' = lckr s) /\
  (offset <> STM32_GPIO_REG_AFRL -> aflr s' = aflr s) /\
  (offset <> STM32_GPIO_REG_AFRH -> afhr s' = afhr s) /\
  in_ s' = in_ s /\ in_mask s' = in_mask s /\
  port s' = port s /\ ngpio s' = ngpio s.
Proof.
  intros Hw.
  destruct (write_register_fields offset value s) as (s1 & Hreg & Hf).
  rewrite (stm32_gpio_write_unfold _ _ _ _ _ Hreg) in Hw.
  destruct (update_state s1) as [[] s2 l2|f] eqn:Hrun; [|discriminate Hw].
  injection Hw as <- _.
  apply update_state_done in Hrun as (_ & _ & v & -> & _).
  cbn [set_idr moder otyper ospeedr pupdr odr lckr aflr afhr in_ in_mask
       port ngpio].
  destruct Hf as (H1 & H2 & H3 & H4 & H5 & H6 & H7 & H8 & _ & H9 & H10 & H11 & H12).
  repeat split; assumption.
Qed.

Lemma stm32_gpio_write_frame_witness :
  stm32_gpio_write STM32_GPIO_REG_BSRR 0x1 busy_bank
    = Done tt (set_odr 0x5 busy_bank) [Trace_write STM32_GPIO_REG_BSRR 0x1] /\
  moder (set_odr 0x5 busy_bank) = moder busy_bank /\
  in_mask (set_odr 0x5 busy_bank) = in_mask busy_bank.
Proof.
  assert (Hw : stm32_gpio_write STM32_GPIO_REG_BSRR 0x1 busy_bank
               = Done tt (set_odr 0x5 busy_bank)
                      [Trace_write STM32_GPIO_REG_BSRR 0x1])
    by (vm_compute; reflexivity).
  split; [exact Hw|].
  destruct (stm32_gpio_write_frame _ _ _ _ _ Hw)
    as (Hm & _ & _ & _ & _ & _ & _ & _ & _ & Hk & _).
  split; [apply Hm; vm_compute; discriminate|exact Hk].
Defined.

(** X4. A register write reports a bad offset exactly when its offset is
    none of the ten registers, and then for that offset; it never reports
    a bad read, and its only trace point is the one of the write itself. *)
Theorem stm32_gpio_write_diagnostic (offset value : Z) (s s' : STM32GPIOState)
        (log : list event) :
  stm32_gpio_write offset value s = Done tt s' log ->
  (forall o, In (Guest_error_bad_write o) log
             <-> o = offset /\ defined_offset offset = false) /\
  (forall o, ~ In (Guest_error_bad_read o) log) /\
  (forall e, In e log -> is_trace e = true -> e = Trace_write offset value).
Proof.
  intros Hw.
  destruct (write_register_fields offset value s) as (s1 & Hreg & _).
  rewrite (stm32_gpio_write_unfold _ _ _ _ _ Hreg) in Hw.
  destruct (update_state s1) as [[] s2 l2|f] eqn:Hrun; [|discriminate Hw].
  injection Hw as _ <-.
  apply update_state_done in Hrun as (_ & -> & _).
  split; [|split].
  - intros o. cbn [In]. rewrite in_app_iff. split.
    + intros [H|[H|H]]; [discriminate H| |].
      * destruct (defined_offset offset); [destruct H|].
        destruct H as [H|[]]. injection H as <-. auto.
      * apply run_log_engine_events in H. discriminate H.
    + intros [-> Hd]. right. left. rewrite Hd. now left.
  - intros o [H|H]; [discriminate H|]. apply in_app_iff in H as [H|H].
    + destruct (defined_offset offset); [destruct H|].
      destruct H as [H|[]]. discriminate H.
    + apply run_log_engine_events in H. discriminate H.
  - intros e [H|H] He; [now symmetry|]. apply in_app_iff in H as [H|H].
    + destruct (defined_offset offset); [destruct H|].
      destruct H as [<-|[]]. discriminate He.
    + apply run_log_engine_events in H. destruct e; discriminate.
Qed.

Lemma stm32_gpio_write_diagnostic_witness :
  stm32_gpio_write 0x28 0x7 busy_bank
    = Done tt busy_bank [Trace_write 0x28 0x7; Guest_error_bad_write 0x28] /\
  forall o, ~ In (Guest_error_bad_read o)
                 [Trace_write 0x28 0x7; Guest_error_bad_write 0x28].
Proof.
  assert (Hw : stm32_gpio_write 0x28 0x7 busy_bank
               = Done tt busy_bank
                      [Trace_write 0x28 0x7; Guest_error_bad_write 0x28])
    by (vm_compute; reflexivity).
  split; [exact Hw|].
  exact (proj1 (proj2 (stm32_gpio_write_diagnostic _ _ _ _ _ Hw))).
Defined.

(** ** The resolution engine *)

(** X5. A run of the engine reports a short circuit for pin [i] exactly
    when [i] is a pin of the bank that is configured as OUTPUT and driven
    from outside; the report depends on the levels of neither side and is
    made on every run while the conflict lasts. *)
Theorem update_state_short_circuit (s : STM32GPIOState) :
  ngpio s <= STM32_GPIO_NPINS ->
  exists s' log,
    update_state s = Done tt s' log /\
    forall i, In (Guest_error_short i) log
              <-> 0 <= i < ngpio s /\
                  field2 (moder s) i = STM32_GPIO_MODE_OUTPUT /\
                  Z.testbit (in_mask s) i = true.
Proof.
  intros Hn. destruct (update_state_run s Hn) as (v & Hrun & _).
  do 2 eexists. split; [exact Hrun|].
  intros i. rewrite in_run_log. split.
  - intros (j & Hj & H). apply in_pin_log_short in H as (-> & Hm & Hk). auto.
  - intros (Hi & Hm & Hk). exists i. split; [exact Hi|].
    apply in_pin_log_short. auto.
Qed.

Lemma update_state_short_circuit_witness :
  ngpio example_bank <= STM32_GPIO_NPINS /\
  exists s' log,
    update_state example_bank = Done tt s' log /\
    ~ In (Guest_error_short 1) log.
Proof.
  assert (Hn : ngpio example_bank <= STM32_GPIO_NPINS)
    by (vm_compute; discriminate).
  split; [exact Hn|].
  destruct (update_state_short_circuit example_bank Hn) as (s' & log & Hrun & H).
  exists s', log. split; [exact Hrun|].
  intros Hin. apply H in Hin as (_ & Hm & _). vm_compute in Hm. discriminate Hm.
Defined.

(** X6. A run of the engine raises the output line of pin [i] to level
    [b] exactly when [i] is a pin of the bank configured as OUTPUT whose
    IDR bit was the opposite of [b] before the run and is [b] after it;
    pins in any other mode never notify, and the engine sends nothing but
    these notifications and the short-circuit reports. *)
Theorem update_state_notifications (s : STM32GPIOState) :
  ngpio s <= STM32_GPIO_NPINS ->
  exists s' log,
    update_state s = Done tt s' log /\
    (forall i b, In (Set_irq i b) log
                 <-> 0 <= i < ngpio s /\
                     field2 (moder s) i = STM32_GPIO_MODE_OUTPUT /\
                     Z.testbit (idr s) i = negb b /\
                     Z.testbit (idr s') i = b) /\
    (forall e, In e log -> is_engine_event e = true).
Proof.
  intros Hn. destruct (update_state_spec s Hn) as (v & Hrun & _ & Hres & _).
  do 2 eexists. split; [exact Hrun|]. split.
  - intros i b. cbn [set_idr idr]. rewrite in_run_log. split.
    + intros (j & Hj & H). apply in_pin_log_irq in H as (-> & Hm & Hr & Hk).
      rewrite Hres by exact Hj. auto.
    + intros (Hi & Hm & Hk & Hr). exists i. split; [exact Hi|].
      apply in_pin_log_irq. rewrite <- Hres by exact Hi. auto.
  - apply run_log_engine_events.
Qed.

Lemma update_state_notifications_witness :
  ngpio example_bank <= STM32_GPIO_NPINS /\
  exists s' log,
    update_state example_bank = Done tt s' log /\ In (Set_irq 0 true) log.
Proof.
  assert (Hn : ngpio example_bank <= STM32_GPIO_NPINS)
    by (vm_compute; discriminate).
  split; [exact Hn|].
  destruct (update_state_notifications example_bank Hn)
    as (s' & log & Hrun & H & _).
  exists s', log. split; [exact Hrun|].
  apply H. split; [vm_compute; split; congruence|].
  split; [reflexivity|]. split; [reflexivity|].
  assert (Hs : update_state example_bank
               = Done tt (set_idr 0x3 example_bank) [Set_irq 0 true])
    by (vm_compute; reflexivity).
  rewrite Hs in Hrun. injection Hrun as <- _. reflexivity.
Defined.

(** X7. The engine is idempotent: a second run right after a first one
    returns the state the first run left and raises no output line, while
    it repeats exactly the short-circuit reports of the first run. *)
Theorem update_state_idempotent (s : STM32GPIOState) :
  ngpio s <= STM32_GPIO_NPINS ->
  exists s1 log1 log2,
    update_state s = Done tt s1 log1 /\
    update_state s1 = Done tt s1 log2 /\
    (forall i b, ~ In (Set_irq i b) log2) /\
    (forall i, In (Guest_error_short i) log2 <-> In (Guest_error_short i) log1).
Proof.
  intros Hn.
  destruct (update_state_spec s Hn) as (v1 & Hrun1 & Hc1 & _ & Hu1 & _).
  set (s1 := set_idr v1 s) in *.
  destruct (update_state_spec s1 Hn) as (v2 & Hrun2 & _ & _ & _ & Hst2).
  rewrite (Hst2 Hc1 Hu1), set_idr_same in Hrun2.
  exists s1, (run_log s), (run_log s1).
  split; [exact Hrun1|]. split; [exact Hrun2|]. split.
  - intros i b H. apply in_run_log in H as (j & Hj & H).
    apply in_pin_log_irq in H as (-> & _ & Hr & Hk).
    rewrite Hc1 in Hk by exact Hj. rewrite Hr in Hk. now destruct b.
  - intros i. rewrite !in_run_log. split; intros (j & Hj & H); exists j;
      (split; [exact Hj|]); apply in_pin_log_short in H;
      apply in_pin_log_short; exact H.
Qed.

Lemma update_state_idempotent_witness :
  ngpio example_bank <= STM32_GPIO_NPINS /\
  exists s1 log1 log2,
    update_state example_bank = Done tt s1 log1 /\
    update_state s1 = Done tt s1 log2 /\
    ~ In (Set_irq 0 true) log2.
Proof.
  assert (Hn : ngpio example_bank <= STM32_GPIO_NPINS)
    by (vm_compute; discriminate).
  split; [exact Hn|].
  destruct (update_state_idempotent example_bank Hn)
    as (s1 & log1 & log2 & H1 & H2 & H3 & _).
  exists s1, log1, log2. split; [exact H1|]. split; [exact H2|apply H3].
Defined.

(** X8. The engine writes only the IDR bits of the pins of the bank: on a
    bank of [ngpio] pins every IDR bit from [ngpio] up to bit 31 is after
    the run what it was before. *)
Theorem update_state_upper_bits (s : STM32GPIOState) :
  ngpio s <= STM32_GPIO_NPINS ->
  exists s' log,
    update_state s = Done tt s' log /\
    forall j, 0 <= j < 32 -> ngpio s <= j ->
              Z.testbit (idr s') j = Z.testbit (idr s) j.
Proof.
  intros Hn. destruct (update_state_run s Hn) as (v & Hrun & Hbits & _).
  do 2 eexists. split; [exact Hrun|].
  intros j Hj Hge. cbn [set_idr idr]. rewrite Hbits by exact Hj.
  replace (j <? ngpio s) with false by (symmetry; apply Z.ltb_ge; lia).
  reflexivity.
Qed.

Lemma update_state_upper_bits_witness :
  ngpio (set_idr 0xFFFF eight_pin_bank) <= STM32_GPIO_NPINS /\
  exists s' log,
    update_state (set_idr 0xFFFF eight_pin_bank) = Done tt s' log /\
    Z.testbit (idr s') 8 = true.
Proof.
  assert (Hn : ngpio (set_idr 0xFFFF eight_pin_bank) <= STM32_GPIO_NPINS)
    by (vm_compute; discriminate).
  split; [exact Hn|].
  destruct (update_state_upper_bits _ Hn) as (s' & log & Hrun & H).
  exists s', log. split; [exact Hrun|].
  rewrite H; [reflexivity|vm_compute; split; congruence|vm_compute; discriminate].
Defined.

(** ** The external signal interface *)

Lemma drive_fields (line value : Z) (s : STM32GPIOState) :
  moder (drive line value s) = moder s /\
  otyper (drive line value s) = otyper s /\
  ospeedr (drive line value s) = ospeedr s /\
  pupdr (drive line value s) = pupdr s /\
  idr (drive line value s) = idr s /\
  odr (drive line value s) = odr s /\
  lckr (drive line value s) = lckr s /\
  aflr (drive line value s) = aflr s /\
  afhr (drive line value s) = afhr s /\
  port (drive line value s) = port s /\
  ngpio (drive line value s) = ngpio s.
Proof. unfold drive. destruct (0 <=? value); repeat split. Qed.

Lemma in_mask_drive (line value : Z) (s : STM32GPIOState) :
  in_mask (drive line value s) = set_bit32 (in_mask s) line (0 <=? value).
Proof. unfold drive. destruct (0 <=? value); reflexivity. Qed.

Lemma in_drive (line value : Z) (s : STM32GPIOState) :
  in_ (drive line value s)
  = if 0 <=? value then set_bit32 (in_ s) line (negb (value =? 0))
    else in_ s.
Proof. unfold drive. destruct (0 <=? value); reflexivity. Qed.

Lemma stm32_gpio_set_done (line value : Z) (s s' : STM32GPIOState)
      (log : list event) :
  stm32_gpio_set line value s = Done tt s' log ->
  0 <= line < STM32_GPIO_NPINS /\ ngpio s <= STM32_GPIO_NPINS /\
  log = Trace_set line value :: run_log (drive line value s) /\
  exists w, s' = set_idr w (drive line value s) /\
    (forall j, 0 <= j < 32 ->
       Z.testbit w j = if j <? ngpio s then resolved (drive line value s) j
                       else Z.testbit (idr s) j) /\
    (ngpio s <= 0 -> w = idr s) /\ (0 < ngpio s -> u32 w).
Proof.
  intros Hset.
  assert (Hl : 0 <= line < STM32_GPIO_NPINS).
  { destruct (Z_le_gt_dec 0 line);
      [destruct (Z_lt_le_dec line STM32_GPIO_NPINS)|]; [lia| |];
      rewrite stm32_gpio_set_abort in Hset by lia; discriminate Hset. }
  rewrite stm32_gpio_set_unfold in Hset by exact Hl.
  destruct (update_state (drive line value s)) as [[] s2 l2|f] eqn:Hrun;
    [|discriminate Hset].
  injection Hset as <- <-.
  apply update_state_done in Hrun as (Hn & -> & w & -> & Hbits & Hz & Hp).
  destruct (drive_fields line value s)
    as (_ & _ & _ & _ & Hidr & _ & _ & _ & _ & _ & Hng).
  rewrite Hng, Hidr in *.
  split; [exact Hl|]. split; [exact Hn|]. split; [reflexivity|].
  exists w. auto.
Qed.

Lemma resolved_drive_other (line value i : Z) (s : STM32GPIOState) :
  0 <= line < 32 -> 0 <= i < 32 -> i <> line ->
  resolved (drive line value s) i = resolved s i.
Proof.
  intros Hl Hi Hne. unfold resolved.
  destruct (drive_fields line value s)
    as (-> & _ & _ & -> & _ & -> & _).
  rewrite in_mask_drive, in_drive. unfold spec_resolve.
  rewrite testbit_set_bit32 by lia.
  replace (i =? line) with false by (symmetry; apply Z.eqb_neq; lia).
  replace (i <? 32) with true by (symmetry; apply Z.ltb_lt; lia).
  rewrite andb_true_r.
  destruct (0 <=? value); [|reflexivity].
  rewrite testbit_set_bit32 by lia.
  replace (i =? line) with false by (symmetry; apply Z.eqb_neq; lia).
  replace (i <? 32) with true by (symmetry; apply Z.ltb_lt; lia).
  now rewrite andb_true_r.
Qed.

Lemma resolved_drive_line (line value : Z) (s : STM32GPIOState) :
  0 <= line < 32 ->
  resolved (drive line value s) line
  = if 0 <=? value then negb (value =? 0)
    else if field2 (moder s) line =? STM32_GPIO_MODE_OUTPUT
         then Z.testbit (odr s) line
         else field2 (pupdr s) line =? STM32_GPIO_PULL_UP.
Proof.
  intros Hl. unfold resolved.
  destruct (drive_fields line value s)
    as (-> & _ & _ & -> & _ & -> & _).
  rewrite in_mask_drive, in_drive. unfold spec_resolve.
  rewrite testbit_set_bit32, Z.eqb_refl by lia.
  destruct (0 <=? value); [|reflexivity].
  now rewrite testbit_set_bit32, Z.eqb_refl by lia.
Qed.

(** X9. [stm32_gpio_set] changes nothing but the two drive vectors and
    IDR.  A non-negative [value] stores [value != 0] in bit [line] of the
    drive vector and keeps its other bits; a negative [value] (release)
    leaves the drive vector as it is, the stale level included. *)
Theorem stm32_gpio_set_drive (line value : Z) (s s' : STM32GPIOState)
        (log : list event) :
  stm32_gpio_set line value s = Done tt s' log ->
  (0 <= value -> forall j, 0 <= j < 32 ->
     Z.testbit (in_ s') j
     = if j =? line then negb (value =? 0) else Z.testbit (in_ s) j) /\
  (value < 0 -> in_ s' = in_ s) /\
  moder s' = moder s /\ otyper s' = otyper s /\ ospeedr s' = ospeedr s /\
  pupdr s' = pupdr s /\ odr s' = odr s /\ lckr s' = lckr s /\
  aflr s' = aflr s /\ afhr s' = afhr s /\
  port s' = port s /\ ngpio s' = ngpio s.
Proof.
  intros Hset.
  apply stm32_gpio_set_done in Hset as (Hl & _ & _ & w & -> & _).
  unfold STM32_GPIO_NPINS in Hl.
  cbn [set_idr moder otyper ospeedr pupdr odr lckr aflr afhr in_ port ngpio].
  rewrite in_drive.
  destruct (drive_fields line value s)
    as (H1 & H2 & H3 & H4 & _ & H5 & H6 & H7 & H8 & H9 & H10).
  split; [|split; [|repeat split; assumption]].
  - intros Hv j Hj.
    replace (0 <=? value) with true by (symmetry; apply Z.leb_le; lia).
    rewrite testbit_set_bit32 by lia.
    replace (j <? 32) with true by (symmetry; apply Z.ltb_lt; lia).
    now rewrite andb_true_r.
  - intros Hv.
    replace (0 <=? value) with false by (symmetry; apply Z.leb_gt; lia).
    reflexivity.
Qed.

Lemma stm32_gpio_set_drive_witness :
  stm32_gpio_set 5 (-1) busy_bank
    = Done tt (set_idr 0x6 (set_in_mask 0 busy_bank)) [Trace_set 5 (-1)] /\
  in_ (set_idr 0x6 (set_in_mask 0 busy_bank)) = in_ busy_bank.
Proof.
  assert (Hs : stm32_gpio_set 5 (-1) busy_bank
               = Done tt (set_idr 0x6 (set_in_mask 0 busy_bank))
                      [Trace_set 5 (-1)])
    by (vm_compute; reflexivity).
  split; [exact Hs|].
  apply (proj1 (proj2 (stm32_gpio_set_drive _ _ _ _ _ Hs))). reflexivity.
Defined.

(** X10. After [stm32_gpio_set] on a pin of the bank, the IDR bit of that
    pin is the driven level [value != 0] when [value] is non-negative,
    whatever the pin's mode, pull and output bit; after a release
    (negative [value]) it is the pin's own level: the ODR bit of an OUTPUT
    pin, else 1 exactly under a pull-up. *)
Theorem stm32_gpio_set_level (line value : Z) (s s' : STM32GPIOState)
        (log : list event) :
  stm32_gpio_set line value s = Done tt s' log ->
  line < ngpio s ->
  Z.testbit (idr s') line
  = if 0 <=? value then negb (value =? 0)
    else if field2 (moder s) line =? STM32_GPIO_MODE_OUTPUT
         then Z.testbit (odr s) line
         else field2 (pupdr s) line =? STM32_GPIO_PULL_UP.
Proof.
  intros Hset Hlt.
  apply stm32_gpio_set_done in Hset as (Hl & _ & _ & w & -> & Hbits & _).
  unfold STM32_GPIO_NPINS in Hl. cbn [set_idr idr].
  rewrite Hbits by lia.
  replace (line <? ngpio s) with true by (symmetry; apply Z.ltb_lt; lia).
  apply resolved_drive_line. lia.
Qed.

Lemma stm32_gpio_set_level_witness :
  stm32_gpio_set 2 0 busy_bank
    = Done tt (set_idr 0x22 (set_in_mask 0x24 busy_bank))
           [Trace_set 2 0; Guest_error_short 2; Set_irq 2 false] /\
  2 < ngpio busy_bank /\
  Z.testbit (idr (set_idr 0x22 (set_in_mask 0x24 busy_bank))) 2 = false.
Proof.
  assert (Hs : stm32_gpio_set 2 0 busy_bank
               = Done tt (set_idr 0x22 (set_in_mask 0x24 busy_bank))
                      [Trace_set 2 0; Guest_error_short 2; Set_irq 2 false])
    by (vm_compute; reflexivity).
  assert (Hlt : 2 < ngpio busy_bank) by (vm_compute; reflexivity).
  split; [exact Hs|split; [exact Hlt|]].
  rewrite (stm32_gpio_set_level _ _ _ _ _ Hs Hlt). reflexivity.
Defined.

(** X11. A change on one external line moves no other pin: on a bank
    whose IDR agrees with its registers, [stm32_gpio_set] on [line] leaves
    every IDR bit other than bit [line] as it was, and bit [line] too when
    [line] is not a pin of the bank ([ngpio <= line]). *)
Theorem stm32_gpio_set_other_pins (line value : Z) (s s' : STM32GPIOState)
        (log : list event) :
  stm32_gpio_set line value s = Done tt s' log ->
  idr_consistent s ->
  forall i, 0 <= i < 32 -> i <> line \/ ngpio s <= line ->
            Z.testbit (idr s') i = Z.testbit (idr s) i.
Proof.
  intros Hset Hc i Hi Hcase.
  apply stm32_gpio_set_done in Hset as (Hl & _ & _ & w & -> & Hbits & _).
  unfold STM32_GPIO_NPINS in Hl. cbn [set_idr idr].
  rewrite Hbits by exact Hi.
  destruct (Z.ltb_spec i (ngpio s)) as [Hlt|Hge]; [|reflexivity].
  rewrite resolved_drive_other by lia.
  symmetry. apply Hc. lia.
Qed.

Lemma stm32_gpio_set_other_pins_witness :
  stm32_gpio_set 2 0 busy_bank
    = Done tt (set_idr 0x22 (set_in_mask 0x24 busy_bank))
           [Trace_set 2 0; Guest_error_short 2; Set_irq 2 false] /\
  idr_consistent busy_bank /\
  Z.testbit (idr (set_idr 0x22 (set_in_mask 0x24 busy_bank))) 5
  = Z.testbit (idr busy_bank) 5.
Proof.
  assert (Hs : stm32_gpio_set 2 0 busy_bank
               = Done tt (set_idr 0x22 (set_in_mask 0x24 busy_bank))
                      [Trace_set 2 0; Guest_error_short 2; Set_irq 2 false])
    by (vm_compute; reflexivity).
  assert (Hc : idr_consistent busy_bank).
  { intros i Hi. change (ngpio busy_bank) with 16 in Hi.
    assert (H : i = 0 \/ i = 1 \/ i = 2 \/ i = 3 \/ i = 4 \/ i = 5 \/ i = 6
                \/ i = 7 \/ i = 8 \/ i = 9 \/ i = 10 \/ i = 11 \/ i = 12
                \/ i = 13 \/ i = 14 \/ i = 15) by lia.
    repeat (destruct H as [->|H]; [reflexivity|]). subst i. reflexivity. }
  split; [exact Hs|split; [exact Hc|]].
  apply (stm32_gpio_set_other_pins _ _ _ _ _ Hs Hc).
  - vm_compute. split; congruence.
  - left. discriminate.
Defined.

Lemma set_bit32_twice (m line : Z) (a b : bool) :
  0 <= line < 32 ->
  set_bit32 (set_bit32 m line a) line b = set_bit32 m line b.
Proof.
  intros Hl. apply Z.bits_inj'. intros j Hj.
  rewrite !testbit_set_bit32 by lia.
  destruct (j =? line); [reflexivity|].
  now rewrite <- andb_assoc, andb_diag.
Qed.

(** X12. A pulse leaves no trace in IDR: driving a line and then
    releasing it ends with the drive mask and the IDR that releasing it
    straight away gives; only the stale level kept in the drive vector
    can differ. *)
Theorem drive_then_release (line v r : Z) (s : STM32GPIOState) :
  ngpio s <= STM32_GPIO_NPINS -> 0 <= line < STM32_GPIO_NPINS ->
  0 <= v -> r < 0 ->
  exists s1 log1 s2 log2 sr logr,
    stm32_gpio_set line v s = Done tt s1 log1 /\
    stm32_gpio_set line r s1 = Done tt s2 log2 /\
    stm32_gpio_set line r s = Done tt sr logr /\
    in_mask s2 = in_mask sr /\ idr s2 = idr sr.
Proof.
  intros Hn Hl Hv Hr.
  destruct (stm32_gpio_set_run line v s Hl Hn) as (w1 & Hs1 & _).
  set (s1 := set_idr w1 (drive line v s)) in *.
  assert (Hn1 : ngpio s1 <= STM32_GPIO_NPINS)
    by (unfold s1; cbn [set_idr ngpio]; now rewrite ngpio_drive).
  destruct (stm32_gpio_set_run line r s1 Hl Hn1) as (w2 & Hs2 & _).
  destruct (stm32_gpio_set_run line r s Hl Hn) as (wr & Hsr & _).
  do 6 eexists. split; [exact Hs1|]. split; [exact Hs2|]. split; [exact Hsr|].
  pose proof (stm32_gpio_set_done _ _ _ _ _ Hs1)
    as (_ & _ & _ & w1' & E1 & B1 & Z1 & U1).
  pose proof (stm32_gpio_set_done _ _ _ _ _ Hs2)
    as (_ & _ & _ & w2' & E2 & B2 & Z2 & U2).
  pose proof (stm32_gpio_set_done _ _ _ _ _ Hsr)
    as (_ & _ & _ & wr' & Er & Br & Zr & Ur).
  assert (w1' = w1) by (apply (f_equal idr) in E1; now cbn in E1).
  assert (w2' = w2) by (apply (f_equal idr) in E2; now cbn in E2).
  assert (wr' = wr) by (apply (f_equal idr) in Er; now cbn in Er).
  subst w1' w2' wr'. clear E1 E2 Er.
  assert (Hng1 : ngpio s1 = ngpio s)
    by (unfold s1; cbn [set_idr ngpio]; apply ngpio_drive).
  assert (Hidr1 : idr s1 = w1) by reflexivity.
  rewrite Hng1, Hidr1 in *.
  unfold STM32_GPIO_NPINS in Hl.
  cbn [set_idr in_mask idr]. split.
  - rewrite !in_mask_drive. unfold s1. cbn [set_idr in_mask].
    rewrite in_mask_drive. apply set_bit32_twice. lia.
  - destruct (Z_le_gt_dec (ngpio s) 0) as [H0|H0].
    + rewrite Z2, Zr, Z1 by exact H0. reflexivity.
    + apply Z.bits_inj'. intros j Hj.
      destruct (Z_lt_le_dec j 32) as [Hlt|Hge];
        [|rewrite !u32_testbit_high; auto; [apply Ur|apply U2]; lia].
      rewrite B2, Br by lia.
      destruct (Z.ltb_spec j (ngpio s)) as [Hin|Hout].
      * destruct (Z.eq_dec j line) as [->|Hne].
        -- rewrite !resolved_drive_line by lia.
           replace (0 <=? r) with false by (symmetry; apply Z.leb_gt; lia).
           unfold s1. cbn [set_idr moder odr pupdr].
           destruct (drive_fields line v s) as (-> & _ & _ & -> & _ & -> & _).
           reflexivity.
        -- rewrite !resolved_drive_other by lia.
           change (resolved s1 j) with (resolved (drive line v s) j).
           apply resolved_drive_other; lia.
      * rewrite B1 by lia.
        replace (j <? ngpio s) with false by (symmetry; apply Z.ltb_ge; lia).
        reflexivity.
Qed.

Lemma drive_then_release_witness :
  ngpio busy_bank <= STM32_GPIO_NPINS /\ 0 <= 3 < STM32_GPIO_NPINS /\
  0 <= 1 /\ -1 < 0 /\
  exists s1 log1 s2 log2 sr logr,
    stm32_gpio_set 3 1 busy_bank = Done tt s1 log1 /\
    stm32_gpio_set 3 (-1) s1 = Done tt s2 log2 /\
    stm32_gpio_set 3 (-1) busy_bank = Done tt sr logr /\
    idr s2 = idr sr.
Proof.
  assert (Hn : ngpio busy_bank <= STM32_GPIO_NPINS)
    by (vm_compute; discriminate).
  assert (Hl : 0 <= 3 < STM32_GPIO_NPINS) by (vm_compute; split; congruence).
  assert (Hv : 0 <= 1) by lia.
  assert (Hr : -1 < 0) by lia.
  split; [exact Hn|split; [exact Hl|split; [exact Hv|split; [exact Hr|]]]].
  destruct (drive_then_release 3 1 (-1) busy_bank Hn Hl Hv Hr)
    as (s1 & log1 & s2 & log2 & sr & logr & H1 & H2 & H3 & _ & H5).
  exists s1, log1, s2, log2, sr, logr. auto.
Defined.

(** ** The set/reset register *)

Lemma testbit_bsrr_odr (o v i : Z) :
  0 <= i < 32 ->
  Z.testbit (bsrr_odr o v) i
  = if i <? 16
    then Z.testbit v i || (Z.testbit o i && negb (Z.testbit v (i + 16)))
    else Z.testbit o i.
Proof.
  intros Hi. unfold bsrr_odr.
  rewrite testbit_to_u32, Z.lor_spec, testbit_to_u32, Z.land_spec,
    testbit_not64, !testbit_low16, Z.shiftr_spec by lia.
  replace (i <? 32) with true by (symmetry; apply Z.ltb_lt; lia).
  replace (i <? 64) with true by (symmetry; apply Z.ltb_lt; lia).
  rewrite !andb_true_r.
  destruct (i <? 16).
  - rewrite !andb_true_r. apply orb_comm.
  - rewrite !andb_false_r. cbn [negb]. now rewrite andb_true_r, orb_false_r.
Qed.

(** X13. A write to BSRR acts on the low 16 bits of ODR only, and reads
    only the low 32 bits of the value: for any 64-bit [v] and any ODR, bit
    [i < 16] of the new ODR is 1 when bit [i] of [v] is 1, else it is the
    old bit unless bit [i + 16] of [v] is 1; bits 16..31 of ODR are kept. *)
Theorem bsrr_write_bits (s : STM32GPIOState) (v : Z) :
  ngpio s <= STM32_GPIO_NPINS ->
  exists s' log,
    stm32_gpio_write STM32_GPIO_REG_BSRR v s = Done tt s' log /\
    forall i, 0 <= i < 32 ->
      Z.testbit (odr s') i
      = if i <? 16
        then Z.testbit v i
             || (Z.testbit (odr s) i && negb (Z.testbit v (i + 16)))
        else Z.testbit (odr s) i.
Proof.
  intros Hn.
  destruct (update_state_run (set_odr (bsrr_odr (odr s) v) s) Hn)
    as (w & Hrun & _).
  rewrite stm32_gpio_write_bsrr, Hrun. do 2 eexists. split; [reflexivity|].
  intros i Hi. cbn [set_idr set_odr odr]. now apply testbit_bsrr_odr.
Qed.

Lemma bsrr_write_bits_witness :
  ngpio busy_bank <= STM32_GPIO_NPINS /\
  exists s' log,
    stm32_gpio_write STM32_GPIO_REG_BSRR 0xFFFF00040000 busy_bank
      = Done tt s' log /\
    Z.testbit (odr s') 2 = false.
Proof.
  assert (Hn : ngpio busy_bank <= STM32_GPIO_NPINS)
    by (vm_compute; discriminate).
  split; [exact Hn|].
  destruct (bsrr_write_bits busy_bank 0xFFFF00040000 Hn)
    as (s' & log & Hw & Hbits).
  exists s', log. split; [exact Hw|].
  rewrite Hbits by lia. reflexivity.
Defined.

(** X14. BSRR drives an output pin: on a pin of the bank configured as
    OUTPUT and not driven from outside, after a write of [v] to BSRR the
    IDR bit reads 1 when the pin's set bit is 1, else 0 when its reset bit
    is 1, else the level ODR already requested. *)
Theorem bsrr_write_drives_pin (s : STM32GPIOState) (v i : Z) :
  ngpio s <= STM32_GPIO_NPINS -> 0 <= i < ngpio s ->
  field2 (moder s) i = STM32_GPIO_MODE_OUTPUT ->
  Z.testbit (in_mask s) i = false ->
  exists s' log,
    stm32_gpio_write STM32_GPIO_REG_BSRR v s = Done tt s' log /\
    Z.testbit (idr s') i
    = Z.testbit v i || (Z.testbit (odr s) i && negb (Z.testbit v (i + 16))).
Proof.
  intros Hn Hi Hm Hk. unfold STM32_GPIO_NPINS in Hn.
  destruct (update_state_spec (set_odr (bsrr_odr (odr s) v) s) Hn)
    as (w & Hrun & _ & Hres & _).
  rewrite stm32_gpio_write_bsrr, Hrun. do 2 eexists. split; [reflexivity|].
  cbn [set_idr idr]. rewrite Hres by exact Hi.
  unfold resolved, spec_resolve. cbn [set_odr moder pupdr odr in_ in_mask].
  rewrite Hk, Hm, Z.eqb_refl, testbit_bsrr_odr by lia.
  replace (i <? 16) with true by (symmetry; apply Z.ltb_lt; lia).
  reflexivity.
Qed.

Lemma bsrr_write_drives_pin_witness :
  ngpio busy_bank <= STM32_GPIO_NPINS /\ 0 <= 2 < ngpio busy_bank /\
  field2 (moder busy_bank) 2 = STM32_GPIO_MODE_OUTPUT /\
  Z.testbit (in_mask busy_bank) 2 = false /\
  exists s' log,
    stm32_gpio_write STM32_GPIO_REG_BSRR 0x00040000 busy_bank
      = Done tt s' log /\
    Z.testbit (idr s') 2 = false.
Proof.
  assert (Hn : ngpio busy_bank <= STM32_GPIO_NPINS)
    by (vm_compute; discriminate).
  assert (Hi : 0 <= 2 < ngpio busy_bank) by (vm_compute; split; congruence).
  assert (Hm : field2 (moder busy_bank) 2 = STM32_GPIO_MODE_OUTPUT)
    by reflexivity.
  assert (Hk : Z.testbit (in_mask busy_bank) 2 = false) by reflexivity.
  split; [exact Hn|split; [exact Hi|split; [exact Hm|split; [exact Hk|]]]].
  destruct (bsrr_write_drives_pin busy_bank 0x00040000 2 Hn Hi Hm Hk)
    as (s' & log & Hw & Hbit).
  exists s', log. split; [exact Hw|]. rewrite Hbit. reflexivity.
Defined.

(** ** Registers the engine does not read *)

(** X15. Writes that touch nothing the engine reads leave the pins alone:
    on a bank whose IDR agrees with its registers, a write to OTYPER,
    OSPEEDR, LCKR, AFRL, AFRH, to the read-only IDR or to an undefined
    offset returns with IDR unchanged and raises no output line. *)
Theorem passive_write_keeps_pins (offset value : Z) (s : STM32GPIOState) :
  passive_offset offset = true -> ngpio s <= STM32_GPIO_NPINS ->
  idr_consistent s -> u32 (idr s) ->
  exists s' log,
    stm32_gpio_write offset value s = Done tt s' log /\
    idr s' = idr s /\
    forall i b, ~ In (Set_irq i b) log.
Proof.
  intros Hoff Hn Hc Hu.
  unfold passive_offset in Hoff. cbn [existsb] in Hoff.
  apply negb_true_iff in Hoff.
  repeat (apply orb_false_elim in Hoff; destruct Hoff as [?E Hoff]).
  apply Z.eqb_neq in E, E0, E1, E2.
  destruct (write_register_fields offset value s)
    as (s1 & Hreg & Hmo & _ & _ & Hpu & Hod & _ & _ & _ & Hidr & Hin & Hmk
        & _ & Hng).
  specialize (Hmo E). specialize (Hpu E0). specialize (Hod E1 E2).
  assert (Hres : forall i, resolved s1 i = resolved s i)
    by (intros i; unfold resolved; now rewrite Hmo, Hpu, Hod, Hin, Hmk).
  assert (Hc1 : idr_consistent s1).
  { intros i Hi. rewrite Hng in Hi. rewrite Hidr, Hres. now apply Hc. }
  destruct (update_state_spec s1) as (w & Hrun & _ & _ & _ & Hst);
    [now rewrite Hng|].
  rewrite Hst in Hrun by (auto; right; now rewrite Hidr).
  rewrite set_idr_same in Hrun.
  rewrite (stm32_gpio_write_unfold _ _ _ _ _ Hreg), Hrun.
  do 2 eexists. split; [reflexivity|]. split; [exact Hidr|].
  intros i b [H|H]; [discriminate H|]. apply in_app_iff in H as [H|H].
  - destruct (defined_offset offset); [destruct H|].
    destruct H as [H|[]]. discriminate H.
  - apply in_run_log in H as (j & Hj & H).
    apply in_pin_log_irq in H as (-> & _ & Hr & Hk).
    rewrite Hc1 in Hk by exact Hj. rewrite Hr in Hk. now destruct b.
Qed.

Lemma passive_write_keeps_pins_witness :
  passive_offset STM32_GPIO_REG_OSPEEDR = true /\
  ngpio port_a_pin0_output <= STM32_GPIO_NPINS /\
  u32 (idr port_a_pin0_output) /\
  exists s' log,
    stm32_gpio_write STM32_GPIO_REG_OSPEEDR 0xFF port_a_pin0_output
      = Done tt s' log /\
    idr s' = idr port_a_pin0_output.
Proof.
  assert (Hoff : passive_offset STM32_GPIO_REG_OSPEEDR = true) by reflexivity.
  assert (Hn : ngpio port_a_pin0_output <= STM32_GPIO_NPINS)
    by (vm_compute; discriminate).
  assert (Hu : u32 (idr port_a_pin0_output)) by (vm_compute; split; congruence).
  assert (Hc : idr_consistent port_a_pin0_output).
  { intros i Hi. change (ngpio port_a_pin0_output) with 16 in Hi.
    assert (H : i = 0 \/ i = 1 \/ i = 2 \/ i = 3 \/ i = 4 \/ i = 5 \/ i = 6
                \/ i = 7 \/ i = 8 \/ i = 9 \/ i = 10 \/ i = 11 \/ i = 12
                \/ i = 13 \/ i = 14 \/ i = 15) by lia.
    repeat (destruct H as [->|H]; [reflexivity|]). subst i. reflexivity. }
  split; [exact Hoff|split; [exact Hn|split; [exact Hu|]]].
  destruct (passive_write_keeps_pins STM32_GPIO_REG_OSPEEDR 0xFF
              port_a_pin0_output Hoff Hn Hc Hu) as (s' & log & Hw & Hidr & _).
  exists s', log. split; [exact Hw|exact Hidr].
Defined.

(** ** Reset *)

(** X16. Reset forgets everything but MODER and the configuration: two
    banks with the same MODER, port and pin count reset to the same
    state, whatever their other registers and drive vectors held; on
    every port OTYPER, IDR, ODR, LCKR, AFRL, AFRH and both drive vectors
    are zero afterwards; and a second reset changes nothing more. *)
Theorem reset_forgets (s : STM32GPIOState) :
  (forall s2, moder s2 = moder s -> port s2 = port s -> ngpio s2 = ngpio s ->
              stm32_gpio_reset s2 = stm32_gpio_reset s) /\
  exists s',
    stm32_gpio_reset s = Done tt s' [] /\
    stm32_gpio_reset s' = Done tt s' [] /\
    otyper s' = 0 /\ idr s' = 0 /\ odr s' = 0 /\ lckr s' = 0 /\
    aflr s' = 0 /\ afhr s' = 0 /\ in_ s' = 0 /\ in_mask s' = 0.
Proof.
  split.
  - intros s2 Hm Hp Hn. rewrite !stm32_gpio_reset_run, Hm, Hp, Hn.
    reflexivity.
  - rewrite stm32_gpio_reset_run. eexists. split; [reflexivity|].
    split; [|repeat split].
    rewrite stm32_gpio_reset_run. cbn [moder port ngpio]. reflexivity.
Qed.

Lemma reset_forgets_witness :
  moder (set_moder 0x10 (fresh STM32_GPIO_PORT_B 16)) = moder busy_bank /\
  port (set_moder 0x10 (fresh STM32_GPIO_PORT_B 16)) = port busy_bank /\
  ngpio (set_moder 0x10 (fresh STM32_GPIO_PORT_B 16)) = ngpio busy_bank /\
  stm32_gpio_reset (set_moder 0x10 (fresh STM32_GPIO_PORT_B 16))
  = stm32_gpio_reset busy_bank.
Proof.
  split; [reflexivity|split; [reflexivity|split; [reflexivity|]]].
  apply (proj1 (reset_forgets busy_bank)); reflexivity.
Defined.

Lemma field2_zero (i : Z) : field2 0 i = 0.
Proof. unfold field2. now rewrite Z.shiftr_0_l. Qed.

(** X17. Reset does not run the engine, and whether it leaves IDR in
    agreement with the registers depends on the port: on a port other
    than A and B it does; on port A with pin 13 in the bank and not an
    OUTPUT, and on port B with pin 4 in the bank and not an OUTPUT, it
    does not, since the reset value of PUPDR pulls that pin up while IDR
    is cleared. *)
Theorem reset_consistency (s : STM32GPIOState) :
  exists s',
    stm32_gpio_reset s = Done tt s' [] /\
    (port s <> STM32_GPIO_PORT_A -> port s <> STM32_GPIO_PORT_B ->
     idr_consistent s') /\
    (port s = STM32_GPIO_PORT_A -> 13 < ngpio s ->
     field2 (moder s) 13 <> STM32_GPIO_MODE_OUTPUT -> ~ idr_consistent s') /\
    (port s = STM32_GPIO_PORT_B -> 4 < ngpio s ->
     field2 (moder s) 4 <> STM32_GPIO_MODE_OUTPUT -> ~ idr_consistent s').
Proof.
  rewrite stm32_gpio_reset_run. eexists. split; [reflexivity|].
  split; [|split].
  - intros HA HB. apply Z.eqb_neq in HA, HB. rewrite HA, HB.
    intros i Hi. unfold resolved, spec_resolve.
    cbn [idr moder pupdr odr in_ in_mask].
    rewrite Z.testbit_0_l, field2_zero.
    destruct (field2 (moder s) i =? STM32_GPIO_MODE_OUTPUT); reflexivity.
  - intros HA Hn Hm Hc. rewrite HA in Hc. cbn [Z.eqb] in Hc.
    specialize (Hc 13). cbn [ngpio] in Hc.
    unfold resolved, spec_resolve in Hc.
    cbn [idr moder pupdr odr in_ in_mask] in Hc.
    apply Z.eqb_neq in Hm. rewrite Hm in Hc.
    specialize (Hc ltac:(lia)). vm_compute in Hc. discriminate Hc.
  - intros HB Hn Hm Hc. rewrite HB in Hc. cbn [Z.eqb] in Hc.
    specialize (Hc 4). cbn [ngpio] in Hc.
    unfold resolved, spec_resolve in Hc.
    cbn [idr moder pupdr odr in_ in_mask] in Hc.
    apply Z.eqb_neq in Hm. rewrite Hm in Hc.
    specialize (Hc ltac:(lia)). vm_compute in Hc. discriminate Hc.
Qed.

Lemma reset_consistency_witness :
  port busy_bank = STM32_GPIO_PORT_B /\ 4 < ngpio busy_bank /\
  field2 (moder busy_bank) 4 <> STM32_GPIO_MODE_OUTPUT /\
  exists s', stm32_gpio_reset busy_bank = Done tt s' [] /\ ~ idr_consistent s'.
Proof.
  assert (Hp : port busy_bank = STM32_GPIO_PORT_B) by reflexivity.
  assert (Hn : 4 < ngpio busy_bank) by (vm_compute; reflexivity).
  assert (Hm : field2 (moder busy_bank) 4 <> STM32_GPIO_MODE_OUTPUT)
    by (vm_compute; discriminate).
  split; [exact Hp|split; [exact Hn|split; [exact Hm|]]].
  destruct (reset_consistency busy_bank) as (s' & Hr & _ & _ & HB).
  exists s'. split; [exact Hr|]. now apply HB.
Defined.

(** ** The registers stay 32-bit values *)

Ltac split_conj := repeat match goal with |- _ /\ _ => split end.

Lemma write_register_u32 (offset value : Z) (s s1 : STM32GPIOState)
      (l1 : list event) :
  u32_state s -> write_register offset value s = Done tt s1 l1 ->
  u32_state s1.
Proof.
  intros (H1 & H2 & H3 & H4 & H5 & H6 & H7 & H8 & H9 & H10 & H11).
  unfold write_register.
  repeat match goal with
         | |- context [offset =? ?c] => destruct (offset =? c)
         end;
    intros Hreg; injection Hreg as <- _; unfold u32_state;
    cbn [set_moder set_otyper set_ospeedr set_pupdr set_odr set_lckr
         set_aflr set_afhr moder otyper ospeedr pupdr idr odr lckr aflr
         afhr in_ in_mask];
    split_conj; assumption || apply to_u32_range.
Qed.

Lemma set_idr_u32 (w : Z) (s : STM32GPIOState) :
  u32_state s -> u32 w -> u32_state (set_idr w s).
Proof.
  intros (H1 & H2 & H3 & H4 & H5 & H6 & H7 & H8 & H9 & H10 & H11) Hw.
  unfold u32_state. cbn [set_idr moder otyper ospeedr pupdr idr odr lckr
                         aflr afhr in_ in_mask].
  split_conj; assumption.
Qed.

Lemma update_state_u32 (s s' : STM32GPIOState) (log : list event) :
  u32_state s -> update_state s = Done tt s' log -> u32_state s'.
Proof.
  intros Hu Hrun.
  apply update_state_done in Hrun as (_ & _ & w & -> & _ & Hz & Hp).
  apply set_idr_u32; [exact Hu|].
  destruct (Z_le_gt_dec (ngpio s) 0) as [H0|H0].
  - rewrite Hz by exact H0. apply Hu.
  - apply Hp. lia.
Qed.

(** X18. The registers stay 32-bit values: from a state whose registers
    and drive vectors are all below 2^32, every register write (of any
    64-bit value, at any offset), every external signal change and reset
    lead to a state of the same kind; no operation lets a bit above bit
    31 into a register. *)
Theorem u32_state_preserved (s : STM32GPIOState) :
  u32_state s ->
  (forall offset value s' log,
      stm32_gpio_write offset value s = Done tt s' log -> u32_state s') /\
  (forall line value s' log,
      stm32_gpio_set line value s = Done tt s' log -> u32_state s') /\
  (forall s' log, stm32_gpio_reset s = Done tt s' log -> u32_state s').
Proof.
  intros Hu. split; [|split].
  - intros offset value s' log Hw.
    destruct (write_register_fields offset value s) as (s1 & Hreg & _).
    rewrite (stm32_gpio_write_unfold _ _ _ _ _ Hreg) in Hw.
    destruct (update_state s1) as [[] s2 l2|f] eqn:Hrun; [|discriminate Hw].
    injection Hw as <- _.
    apply (update_state_u32 s1 s2 l2); [|exact Hrun].
    now apply (write_register_u32 offset value s s1 _ Hu Hreg).
  - intros line value s' log Hset.
    pose proof (stm32_gpio_set_done _ _ _ _ _ Hset) as (Hl & _ & _ & _).
    unfold STM32_GPIO_NPINS in Hl.
    rewrite stm32_gpio_set_unfold in Hset by exact Hl.
    destruct (update_state (drive line value s)) as [[] s2 l2|f] eqn:Hrun;
      [|discriminate Hset].
    injection Hset as <- _.
    apply (update_state_u32 (drive line value s) s2 l2); [|exact Hrun].
    destruct Hu as (H1 & H2 & H3 & H4 & H5 & H6 & H7 & H8 & H9 & H10 & H11).
    unfold u32_state.
    destruct (drive_fields line value s)
      as (-> & -> & -> & -> & -> & -> & -> & -> & -> & _).
    rewrite in_mask_drive, in_drive.
    split_conj; try assumption.
    + destruct (0 <=? value); [apply set_bit32_range; lia|exact H10].
    + apply set_bit32_range. lia.
  - intros s' log Hr. rewrite stm32_gpio_reset_run in Hr.
    injection Hr as <- _.
    destruct Hu as (H1 & _).
    unfold u32_state. cbn [moder otyper ospeedr pupdr idr odr lckr aflr
                           afhr in_ in_mask].
    destruct (port s =? STM32_GPIO_PORT_A);
      [|destruct (port s =? STM32_GPIO_PORT_B)];
      split_conj; assumption || (vm_compute; split; congruence).
Qed.

Lemma u32_state_preserved_witness :
  u32_state busy_bank /\
  stm32_gpio_write STM32_GPIO_REG_MODER 0x1FFFFFFFF busy_bank
    = Done tt (set_idr 0x22 (set_moder 0xFFFFFFFF busy_bank))
           [Trace_write STM32_GPIO_REG_MODER 0x1FFFFFFFF] /\
  u32_state (set_idr 0x22 (set_moder 0xFFFFFFFF busy_bank)).
Proof.
  assert (Hu : u32_state busy_bank)
    by (unfold u32_state; split_conj; vm_compute; split; congruence).
  assert (Hw : stm32_gpio_write STM32_GPIO_REG_MODER 0x1FFFFFFFF busy_bank
               = Done tt (set_idr 0x22 (set_moder 0xFFFFFFFF busy_bank))
                      [Trace_write STM32_GPIO_REG_MODER 0x1FFFFFFFF])
    by (vm_compute; reflexivity).
  split; [exact Hu|split; [exact Hw|]].
  exact (proj1 (u32_state_preserved busy_bank Hu) _ _ _ _ Hw).
Defined.
